(** * Axec: a shallow embedding of the AppImage registry (src-tauri/src/lib.rs)

    The Tauri back end of Axec stores AppImage bundles under the XDG data
    directory, extracts an icon from each bundle, writes a desktop menu
    entry, and lists, removes and launches the stored bundles.  This file
    embeds the functions of [lib.rs] and proves properties of them.

    Conventions of the embedding.
    - A Rust [char] is a Unicode scalar value.  We represent characters by
      Stdlib [ascii] read as the code points U+0000..U+00FF (Latin-1).  Every
      function of [lib.rs] maps characters that are not ASCII alphanumerics
      (or space, '-' and '_') to a fixed separator before doing anything
      else with them, so code points above U+00FF behave like any other
      non-ASCII code point of this range.
    - A Rust [String] / [&str] is a Stdlib [string]; [.chars()] is
      [list_ascii_of_string] and [.collect()] is [string_of_list_ascii].
    - Paths are strings, compared as the code spells them (no [.]/[..]
      normalisation, no symlinks).
    - The file system is a finite map from paths to nodes.  Failures of the
      OS are modelled by a set of protected paths on which creating,
      writing or deleting fails with [EACCES]. *)

From Stdlib Require Import Ascii String.
From stdpp Require Import base gmap list strings.

Open Scope string_scope.

(* ------------------------------------------------------------------ *)
(** ** Characters *)

Module Chars.
Local Open Scope nat_scope.

Definition code (c : ascii) : nat := nat_of_ascii c.

(** [char::is_ascii_alphanumeric] *)
Definition is_ascii_alphanumeric (c : ascii) : bool :=
  let n := code c in
  ((48 <=? n) && (n <=? 57)) || ((65 <=? n) && (n <=? 90))
  || ((97 <=? n) && (n <=? 122)).

(** [char::is_whitespace] on U+0000..U+00FF: the White_Space code points
    of that range. *)
Definition is_whitespace (c : ascii) : bool :=
  let n := code c in
  ((9 <=? n) && (n <=? 13)) || (n =? 32) || (n =? 133) || (n =? 160).

(** [char::to_ascii_lowercase] *)
Definition to_ascii_lowercase (c : ascii) : ascii :=
  let n := code c in
  if (65 <=? n) && (n <=? 90) then ascii_of_nat (n + 32) else c.

(** [char::to_lowercase] on U+0000..U+00FF: A-Z and the Latin-1 capitals
    U+00C0..U+00D6, U+00D8..U+00DE map to the code point 32 above; every
    other character of the range is its own lower case. *)
Definition to_lowercase (c : ascii) : ascii :=
  let n := code c in
  if ((65 <=? n) && (n <=? 90)) || ((192 <=? n) && (n <=? 214))
     || ((216 <=? n) && (n <=? 222))
  then ascii_of_nat (n + 32) else c.

Definition eqc (c d : ascii) : bool := Ascii.eqb c d.

End Chars.

Import Chars.

(* ------------------------------------------------------------------ *)
(** ** String library used by the code *)

Module Str.

(** [str::to_lowercase] *)
Definition to_lowercase (s : string) : string :=
  string_of_list_ascii (map Chars.to_lowercase (list_ascii_of_string s)).

(** [str::to_ascii_lowercase] *)
Definition to_ascii_lowercase (s : string) : string :=
  string_of_list_ascii (map Chars.to_ascii_lowercase (list_ascii_of_string s)).

Fixpoint drop_while (p : ascii -> bool) (l : list ascii) : list ascii :=
  match l with
  | [] => []
  | c :: t => if p c then drop_while p t else l
  end.

(** [str::trim_matches] for a predicate: drop matching characters at both
    ends. *)
Definition trim_matches_l (p : ascii -> bool) (l : list ascii) : list ascii :=
  rev (drop_while p (rev (drop_while p l))).

Definition trim_matches (p : ascii -> bool) (s : string) : string :=
  string_of_list_ascii (trim_matches_l p (list_ascii_of_string s)).

(** [str::trim]: remove leading and trailing whitespace. *)
Definition trim (s : string) : string := trim_matches is_whitespace s.

(** [str::split_whitespace]: the maximal runs of non-whitespace characters,
    in order. [cur] is the reversed word being read. *)
Fixpoint split_ws_go (cur : list ascii) (l : list ascii) : list (list ascii) :=
  match l with
  | [] => match cur with [] => [] | _ => [rev cur] end
  | c :: t =>
      if is_whitespace c then
        match cur with
        | [] => split_ws_go [] t
        | _ => rev cur :: split_ws_go [] t
        end
      else split_ws_go (c :: cur) t
  end.

Definition split_whitespace (s : string) : list string :=
  map string_of_list_ascii (split_ws_go [] (list_ascii_of_string s)).

(** [[T]::join(sep)] for a vector of strings. *)
Fixpoint join (sep : string) (ws : list string) : string :=
  match ws with
  | [] => ""
  | [w] => w
  | w :: ws' => w +:+ sep +:+ join sep ws'
  end.

(** [str::contains] for a string pattern. *)
Fixpoint contains (pat s : string) : bool :=
  String.prefix pat s ||
  match s with
  | EmptyString => false
  | String _ s' => contains pat s'
  end.

End Str.

(* ------------------------------------------------------------------ *)
(** ** Identity deriver: [sanitize_filename] *)

(** [fn sanitize_filename(name: &str) -> String] (lib.rs 42-48) *)
Definition sanitize_filename (name : string) : string :=
  let filtered : string :=
    string_of_list_ascii
      (map (fun c => if is_ascii_alphanumeric c || eqc c "-" || eqc c "_"
                     then c else "-"%char)
           (list_ascii_of_string name)) in
  Str.to_lowercase (Str.trim_matches (fun c => eqc c "-") filtered).

(* ------------------------------------------------------------------ *)
(** ** [std::path] *)

Module Path.

(** The '/'-separated pieces of a path, empty pieces included. *)
Fixpoint split_slash (l : list ascii) : list (list ascii) :=
  match l with
  | [] => [[]]
  | c :: t =>
      if eqc c "/" then [] :: split_slash t
      else match split_slash t with
           | w :: ws => (c :: w) :: ws
           | [] => [[c]]
           end
  end.

Definition is_dot (w : list ascii) : bool :=
  match w with ["."%char] => true | _ => false end.
Definition is_dotdot (w : list ascii) : bool :=
  match w with ["."%char; "."%char] => true | _ => false end.

(** [Path::file_name]: the last component when it is a normal one.
    [Path::components] skips empty pieces and [.] pieces (a leading [.]
    is a [CurDir] component, never a file name). *)
Definition file_name_l (p : list ascii) : option (list ascii) :=
  match last (List.filter (fun w => negb (bool_decide (w = [])) && negb (is_dot w))
                     (split_slash p)) with
  | Some w => if is_dotdot w then None else Some w
  | None => None
  end.

Definition file_name (p : string) : option string :=
  string_of_list_ascii <$> file_name_l (list_ascii_of_string p).

(** Split at the last '.': [Some (before, after)], or [None] without dot. *)
Fixpoint split_last_dot (l : list ascii) : option (list ascii * list ascii) :=
  match l with
  | [] => None
  | c :: t =>
      match split_last_dot t with
      | Some (b, a) => Some (c :: b, a)
      | None => if eqc c "." then Some ([], t) else None
      end
  end.

(** [std::path::rsplit_file_at_dot] *)
Definition rsplit_file_at_dot (f : list ascii)
  : option (list ascii) * option (list ascii) :=
  if is_dotdot f then (Some f, None) else
  match split_last_dot f with
  | None => (None, Some f)
  | Some ([], _) => (Some f, None)
  | Some (b, a) => (Some b, Some a)
  end.

(** [Path::file_stem]: [before.or(after)] *)
Definition file_stem (p : string) : option string :=
  match file_name_l (list_ascii_of_string p) with
  | None => None
  | Some f =>
      match rsplit_file_at_dot f with
      | (Some b, _) => Some (string_of_list_ascii b)
      | (None, a) => string_of_list_ascii <$> a
      end
  end.

(** [Path::extension]: [before.and(after)] *)
Definition extension (p : string) : option string :=
  match file_name_l (list_ascii_of_string p) with
  | None => None
  | Some f =>
      match rsplit_file_at_dot f with
      | (Some _, a) => string_of_list_ascii <$> a
      | (None, _) => None
      end
  end.

Definition ends_with_slash (s : string) : bool :=
  match last (list_ascii_of_string s) with
  | Some c => eqc c "/"
  | None => false
  end.

Definition starts_with_slash (s : string) : bool :=
  match s with
  | String c _ => eqc c "/"
  | EmptyString => false
  end.

(** What [PathBuf::push] puts in front of a relative component. *)
Definition dir_prefix (d : string) : string :=
  match d with
  | EmptyString => ""
  | _ => if ends_with_slash d then d else d +:+ "/"
  end.

(** [Path::join]: an absolute component replaces the path; otherwise a
    separator is added unless the path is empty or already ends in one. *)
Definition join (d n : string) : string :=
  if starts_with_slash n then n else dir_prefix d +:+ n.

End Path.

(* ------------------------------------------------------------------ *)
(** ** Identity deriver: [parse_appimage_name] *)

Definition is_kept_name_char (c : ascii) : bool :=
  is_ascii_alphanumeric c || eqc c " " || eqc c "-" || eqc c "_".

(** [fn parse_appimage_name(path: &Path) -> String] (lib.rs 50-59).
    [to_str] succeeds on every path of the model (they are valid UTF-8),
    so [unwrap_or("appimage")] is reached exactly when there is no stem. *)
Definition parse_appimage_name (path : string) : string :=
  let fname := match Path.file_stem path with
               | Some s => s
               | None => "appimage"
               end in
  let base := string_of_list_ascii
                (map (fun c => if is_kept_name_char c then c else " "%char)
                     (list_ascii_of_string fname)) in
  let base := Str.join " " (Str.split_whitespace base) in
  Str.trim base.

Example parse_example :
  parse_appimage_name "/home/u/Downloads/MyApp-1.2.3_x86_64.AppImage"
  = "MyApp-1 2 3_x86_64".
Proof. reflexivity. Qed.

Example sanitize_example :
  sanitize_filename "MyApp-1 2 3_x86_64" = "myapp-1-2-3_x86_64".
Proof. reflexivity. Qed.

Example file_name_examples :
  Path.file_name "/a/b/" = Some "b" /\ Path.file_name "/a/.." = None
  /\ Path.file_stem ".AppImage" = Some ".AppImage"
  /\ Path.extension ".AppImage" = None
  /\ Path.extension "/s/x.y.AppImage" = Some "AppImage"
  /\ Path.join "/s" "x" = "/s/x" /\ Path.join "/s/" "x" = "/s/x".
Proof. repeat split; reflexivity. Qed.

(* ------------------------------------------------------------------ *)
(** ** The world: file system, environment, processes *)

(** A node of the file system: a regular file with its content and its
    permission bits, or a directory. *)
Inductive node :=
| NFile (content : string) (mode : N)
| NDir.

Record world := mkWorld {
  w_fs : gmap string node;      (** every existing path *)
  w_ro : gset string;           (** paths where create/write/delete fail *)
  w_spawned : list string;      (** programs started by [Command::spawn] *)
}.

(** What the process [<bundle> --appimage-extract] does once started: it
    exits with a status and leaves a tree in its working directory (paths
    relative to that directory). *)
Inductive extract_outcome :=
| Exited (success : bool) (tree : list (string * node)).

Record env := mkEnv {
  env_data_dir : option string;      (** [dirs::data_dir()] *)
  env_home_dir : option string;      (** [dirs::home_dir()] *)
  env_FLATPAK_ID : option string;    (** [std::env::var("FLATPAK_ID")] *)
  env_container : option string;     (** [std::env::var("container")] *)
  env_tempdir_ok : bool;             (** [tempfile::Builder::tempdir()] succeeds *)
  env_exec_format_ok : string -> bool;
    (** exec accepts a file of this content (ELF, [#!] script, ...) *)
  env_extract : string -> extract_outcome;
    (** the run of [--appimage-extract] for a bundle of the given content *)
}.

(** [std::io::Error], with the text its [Display] prints. *)
Inductive io_error :=
| ENOENT | EACCES | EISDIR | EEXIST | ENOTDIR | ENOEXEC
| CopyNotRegular
| Custom (msg : string).

Definition io_msg (e : io_error) : string :=
  match e with
  | ENOENT => "No such file or directory (os error 2)"
  | EACCES => "Permission denied (os error 13)"
  | EISDIR => "Is a directory (os error 21)"
  | EEXIST => "File exists (os error 17)"
  | ENOTDIR => "Not a directory (os error 20)"
  | ENOEXEC => "Exec format error (os error 8)"
  | CopyNotRegular =>
      "the source path is neither a regular file nor a symlink to a regular file"
  | Custom m => m
  end.

Inductive result (A E : Type) :=
| Ok (a : A)
| Err (e : E).
Arguments Ok {A E} a.
Arguments Err {A E} e.

(** State-and-error monad over the world. *)
Definition M (E A : Type) : Type := world -> result A E * world.

Definition mret {E A} (a : A) : M E A := fun w => (Ok a, w).
Definition mfail {E A} (e : E) : M E A := fun w => (Err e, w).
Definition mbind {E A B} (m : M E A) (k : A -> M E B) : M E B :=
  fun w => match m w with
           | (Ok a, w') => k a w'
           | (Err e, w') => (Err e, w')
           end.
(** [.map_err(f)] *)
Definition map_err {E F A} (f : E -> F) (m : M E A) : M F A :=
  fun w => match m w with
           | (Ok a, w') => (Ok a, w')
           | (Err e, w') => (Err (f e), w')
           end.

Notation "'let!' x ':=' m 'in' k" := (mbind m (fun x => k))
  (at level 200, x name, m at level 100, k at level 200).
Notation "'let!' ' p ':=' m 'in' k" := (mbind m (fun x => match x with p => k end))
  (at level 200, p pattern, m at level 100, k at level 200).

(** [Path::exists] *)
Definition exists_b (p : string) (w : world) : bool :=
  bool_decide (is_Some (w_fs w !! p)).

(** [Path::is_dir] *)
Definition is_dir (p : string) (w : world) : bool :=
  match w_fs w !! p with Some NDir => true | _ => false end.

Definition set_fs (w : world) (fs : gmap string node) : world :=
  mkWorld fs (w_ro w) (w_spawned w).

(** [fs::remove_file] *)
Definition remove_file (p : string) : M io_error unit := fun w =>
  match w_fs w !! p with
  | None => (Err ENOENT, w)
  | Some NDir => (Err EISDIR, w)
  | Some (NFile _ _) =>
      if bool_decide (p ∈ w_ro w) then (Err EACCES, w)
      else (Ok tt, set_fs w (delete p (w_fs w)))
  end.

(** [fs::copy]: the destination gets the content and the permission bits
    of the source.  The destination is opened with [O_TRUNC] before the
    content is read, so copying a file onto itself leaves it empty. *)
Definition fs_copy (src dst : string) : M io_error unit := fun w =>
  match w_fs w !! src with
  | None => (Err ENOENT, w)
  | Some NDir => (Err CopyNotRegular, w)
  | Some (NFile c m) =>
      match w_fs w !! dst with
      | Some NDir => (Err EISDIR, w)
      | _ => if bool_decide (dst ∈ w_ro w) then (Err EACCES, w)
             else (Ok tt, set_fs w (<[dst := NFile (if bool_decide (dst = src)
                                                   then "" else c) m]> (w_fs w)))
      end
  end.

(** Whether [exec] starts the program [p] ([Command::spawn], [status]):
    it needs a regular file with the owner's execute bit, in a format exec
    accepts.  On success, the content that runs. *)
Definition can_exec (e : env) (p : string) (w : world) : result string io_error :=
  match w_fs w !! p with
  | None => Err ENOENT
  | Some NDir => Err EACCES
  | Some (NFile c m) =>
      if N.testbit m 6 then (if env_exec_format_ok e c then Ok c else Err ENOEXEC)
      else Err EACCES
  end.

(** The directories [fs::create_dir_all] creates, outermost first: every
    proper prefix ending before a '/', then the path itself. *)
Fixpoint dir_chain_go (acc : list ascii) (l : list ascii) : list (list ascii) :=
  match l with
  | [] => []
  | c :: t =>
      if eqc c "/" then
        match acc with
        | [] => dir_chain_go [c] t
        | _ => rev acc :: dir_chain_go (c :: acc) t
        end
      else dir_chain_go (c :: acc) t
  end.

Definition dir_chain (p : string) : list string :=
  map string_of_list_ascii (dir_chain_go [] (list_ascii_of_string p)) ++ [p].

(** One [mkdir] of the chain; [last] tells whether [q] is the path itself
    ([EEXIST] on a regular file) or one of its parents ([ENOTDIR]). *)
Definition create_one (last : bool) (q : string) : M io_error unit := fun w =>
  match w_fs w !! q with
  | Some NDir => (Ok tt, w)
  | Some (NFile _ _) => (Err (if last then EEXIST else ENOTDIR), w)
  | None => if bool_decide (q ∈ w_ro w) then (Err EACCES, w)
            else (Ok tt, set_fs w (<[q := NDir]> (w_fs w)))
  end.

Fixpoint create_all (qs : list string) : M io_error unit :=
  match qs with
  | [] => mret tt
  | q :: qs' =>
      let! _ := create_one match qs' with [] => true | _ => false end q in
      create_all qs'
  end.

(** [fs::create_dir_all] *)
Definition create_dir_all (p : string) : M io_error unit := fun w =>
  if bool_decide (p = "") || is_dir p w then (Ok tt, w)
  else create_all (dir_chain p) w.

(** [fs::read_dir]: the names of the entries of a directory, [None] when
    it cannot be read. *)
Fixpoint strip_prefix (pre l : list ascii) : option (list ascii) :=
  match pre, l with
  | [], _ => Some l
  | c :: pre', d :: l' => if eqc c d then strip_prefix pre' l' else None
  | _ :: _, [] => None
  end.

Definition is_entry_name (n : list ascii) : bool :=
  negb (bool_decide (n = [])) && forallb (fun c => negb (eqc c "/")) n
  && negb (Path.is_dot n) && negb (Path.is_dotdot n).

Definition entry_of (d : string) (k : string) : option string :=
  match strip_prefix (list_ascii_of_string (Path.dir_prefix d))
                     (list_ascii_of_string k) with
  | Some n => if is_entry_name n then Some (string_of_list_ascii n) else None
  | None => None
  end.

Definition read_dir (d : string) (w : world) : option (list string) :=
  match w_fs w !! d with
  | Some NDir => Some (omap (fun kv => entry_of d kv.1) (map_to_list (w_fs w)))
  | _ => None
  end.

(* ------------------------------------------------------------------ *)
(** ** lib.rs: directories *)

Definition APPLICATIONS_DIR : string := ".local/share/applications".

(** [fn in_flatpak_sandbox() -> bool] (lib.rs 14-16) *)
Definition in_flatpak_sandbox (e : env) : bool :=
  match env_FLATPAK_ID e with Some _ => true | None => false end
  || match env_container e with Some v => bool_decide (v = "flatpak") | None => false end.

Definition storage_of (data_dir : string) : string :=
  Path.join data_dir "axec/appimages".

(** The menu directory [ensure_dirs] chooses (lib.rs 31-36). *)
Definition apps_of (e : env) (data_dir : string) : result string io_error :=
  if in_flatpak_sandbox e then Ok (Path.join data_dir "applications")
  else match env_home_dir e with
       | None => Err (Custom "HOME not found")
       | Some h => Ok (Path.join h APPLICATIONS_DIR)
       end.

(** [fn ensure_dirs() -> io::Result<(PathBuf, PathBuf)>] (lib.rs 27-40) *)
Definition ensure_dirs (e : env) : M io_error (string * string) :=
  match env_data_dir e with
  | None => mfail (Custom "XDG data dir not found")
  | Some data_dir =>
      let storage := storage_of data_dir in
      match apps_of e data_dir with
      | Err err => mfail err
      | Ok apps =>
          let! _ := create_dir_all storage in
          let! _ := create_dir_all apps in
          mret (storage, apps)
      end
  end.

(* ------------------------------------------------------------------ *)
(** ** lib.rs: desktop file, permissions, icon *)

Definition nl : string := String (ascii_of_nat 10) EmptyString.
Definition dquote : string := String (ascii_of_nat 34) EmptyString.

(** The text [format!] builds in [write_desktop_file] (lib.rs 63-70). *)
Definition desktop_content (name exec_str : string) (icon_path : option string)
  : string :=
  let icon_line := match icon_path with
                   | Some p => "Icon=" +:+ p
                   | None => ""
                   end in
  "[Desktop Entry]" +:+ nl +:+ "Type=Application" +:+ nl +:+
  "Name=" +:+ name +:+ nl +:+
  "Exec=" +:+ dquote +:+ exec_str +:+ dquote +:+ " %U" +:+ nl +:+
  "Terminal=false" +:+ nl +:+ "Categories=Utility;" +:+ nl +:+
  icon_line +:+ nl +:+
  "X-AppImage-Version=1" +:+ nl +:+ "X-AppImage-Integrate=false" +:+ nl.

(** [fn write_desktop_file(...)] (lib.rs 61-72): [File::create] truncates
    an existing file (keeping its mode) or creates one with mode 0o644,
    then [write_all] writes the whole content. *)
Definition write_desktop_file (name exec_path : string) (icon_path : option string)
  (desktop_path : string) : M io_error unit := fun w =>
  let content := desktop_content name exec_path icon_path in
  match w_fs w !! desktop_path with
  | Some NDir => (Err EISDIR, w)
  | old =>
      if bool_decide (desktop_path ∈ w_ro w) then (Err EACCES, w)
      else
        let mode := match old with Some (NFile _ m) => m | _ => 420%N end in
        (Ok tt, set_fs w (<[desktop_path := NFile content mode]> (w_fs w)))
  end.

(** [fn make_executable(path: &Path)] (lib.rs 74-78): mode 0o755. *)
Definition make_executable (p : string) : M io_error unit := fun w =>
  match w_fs w !! p with
  | None => (Err ENOENT, w)
  | Some n =>
      if bool_decide (p ∈ w_ro w) then (Err EACCES, w)
      else
        let n' := match n with NFile c _ => NFile c 493%N | NDir => NDir end in
        (Ok tt, set_fs w (<[p := n']> (w_fs w)))
  end.

(** The extraction directory of one [extract_icon] call is the [TempDir]
    value [tmp_dir]: its contents are the tree left by the process, and it
    is deleted when the call returns.  It is modelled as that tree, with
    paths relative to the directory. *)
Fixpoint tree_lookup (tree : list (string * node)) (p : string) : option node :=
  match tree with
  | [] => None
  | (k, n) :: t => if bool_decide (k = p) then Some n else tree_lookup t p
  end.

Definition tree_is_dir (tree : list (string * node)) (p : string) : bool :=
  match tree_lookup tree p with Some NDir => true | _ => false end.

Definition tree_read_dir (tree : list (string * node)) (d : string) : list string :=
  omap (fun kv => entry_of d kv.1) tree.

Definition icon_subdirs : list string :=
  ["usr/share/icons/hicolor/256x256/apps"; "usr/share/icons/hicolor/128x128/apps";
   "usr/share/icons/hicolor/64x64/apps"; "usr/share/pixmaps"].

Definition is_icon_ext (ext : string) : bool :=
  bool_decide (ext ∈ ["png"; "svg"; "xpm"; "ico"]).

(** The candidate list of [extract_icon] (lib.rs 91-112). *)
Definition icon_candidates (tree : list (string * node)) : list string :=
  let squash_root := "squashfs-root" in
  Path.join squash_root ".DirIcon" ::
  concat (map (fun sub =>
    let dir := Path.join squash_root sub in
    if tree_is_dir tree dir then
      List.filter (fun p => match Path.extension p with
                       | Some ext => is_icon_ext (Str.to_ascii_lowercase ext)
                       | None => false
                       end)
             (map (Path.join dir) (tree_read_dir tree dir))
    else []) icon_subdirs).

(** [fn extract_icon(appimage_path, target_dir, base_id) -> Option<PathBuf>]
    (lib.rs 80-127) *)
Definition extract_icon (e : env) (appimage_path target_dir base_id : string)
  : world -> option string * world := fun w =>
  if negb (env_tempdir_ok e) then (None, w) else
  match can_exec e appimage_path w with
  | Err _ => (None, w)
  | Ok content =>
      match env_extract e content with
      | Exited success tree =>
          if negb success then (None, w) else
          match list_find (fun p => bool_decide (is_Some (tree_lookup tree p)))
                          (icon_candidates tree) with
          | None => (None, w)
          | Some (_, icon_src) =>
              let ext := match Path.extension icon_src with
                         | Some s => Str.to_ascii_lowercase s
                         | None => "png"
                         end in
              let icon_dest := Path.join target_dir (base_id +:+ "." +:+ ext) in
              match tree_lookup tree icon_src with
              | Some (NFile c m) =>
                  match w_fs w !! icon_dest with
                  | Some NDir => (None, w)
                  | _ => if bool_decide (icon_dest ∈ w_ro w) then (None, w)
                         else (Some icon_dest,
                               set_fs w (<[icon_dest := NFile c m]> (w_fs w)))
                  end
              | _ => (None, w)
              end
          end
      end
  end.

(* ------------------------------------------------------------------ *)
(** ** lib.rs: the four commands *)

(** [pub struct AppImageEntry] (lib.rs 18-25) *)
Record AppImageEntry := mkEntry {
  id : string;
  name : string;
  path : string;
  icon_path : option string;
  desktop_file : string;
}.

Definition desktop_name (id : string) : string := "axec-" +:+ id +:+ ".desktop".

(** The entry [list_apps] builds for a storage path [p] (lib.rs 138-155). *)
Definition list_entry (storage apps_dir p : string) (w : world) : list AppImageEntry :=
  match Path.extension p with
  | Some ext =>
      if bool_decide (Str.to_ascii_lowercase ext = "appimage") then
        let name := parse_appimage_name p in
        let id := sanitize_filename name in
        let desktop_file := Path.join apps_dir (desktop_name id) in
        let icon_path :=
          snd <$> list_find (fun x => exists_b x w = true)
                    (map (fun e => Path.join storage (id +:+ "." +:+ e))
                         ["png"; "svg"; "ico"; "xpm"]) in
        [mkEntry id name p icon_path desktop_file]
      else []
  | None => []
  end.

(** [fn list_apps() -> Result<Vec<AppImageEntry>, String>] (lib.rs 129-156);
    a directory that cannot be read gives the empty list. *)
Definition list_apps (e : env) : M string (list AppImageEntry) :=
  let! '(storage, apps_dir) := map_err io_msg (ensure_dirs e) in
  fun w =>
    let names := match read_dir storage w with Some ns => ns | None => [] end in
    (Ok (concat (map (fun n => list_entry storage apps_dir (Path.join storage n) w)
                     names)), w).

(** [fn add_appimage(file_path: String) -> Result<AppImageEntry, String>]
    (lib.rs 158-188).  The source declares [desktop_path] inside the
    [if !in_flatpak_sandbox()] block (line 176) and names it again in the
    returned entry (line 186), where that binding is out of scope.  This
    definition binds [desktop_path] before the block, to the value the
    block computes. *)
Definition add_appimage (e : env) (file_path : string) : M string AppImageEntry :=
  fun w =>
  if negb (exists_b file_path w) then (Err "File not found", w) else
  (let! '(storage, apps_dir) := map_err io_msg (ensure_dirs e) in
   let name := parse_appimage_name file_path in
   let id := sanitize_filename name in
   let dest_path := Path.join storage (id +:+ ".AppImage") in
   let! _ := map_err io_msg (fs_copy file_path dest_path) in
   let! _ := map_err io_msg (make_executable dest_path) in
   fun w3 =>
     let '(icon_path, w4) := extract_icon e dest_path storage id w3 in
     let desktop_path := Path.join apps_dir (desktop_name id) in
     (let! _ := (if negb (in_flatpak_sandbox e)
                 then map_err io_msg (write_desktop_file name dest_path icon_path desktop_path)
                 else mret tt) in
      mret (mkEntry id name dest_path icon_path desktop_path)) w4) w.

(** The bundle loop of [remove_app] (lib.rs 195-201). *)
Fixpoint remove_bundles (storage id : string) (exts : list string) (ok_any : bool)
  : M string bool :=
  match exts with
  | [] => mret ok_any
  | ext :: exts' =>
      let p := Path.join storage (id +:+ "." +:+ ext) in
      fun w =>
        if exists_b p w then
          (let! _ := map_err io_msg (remove_file p) in
           remove_bundles storage id exts' true) w
        else remove_bundles storage id exts' ok_any w
  end.

Definition icon_exts : list string := ["png"; "svg"; "ico"; "xpm"].

(** [let _ = fs::remove_file(p);]: the result is dropped. *)
Definition remove_file_ignored (p : string) (w : world) : world :=
  snd (remove_file p w).

(** The icon loop of [remove_app] (lib.rs 203-206). *)
Definition remove_icon_files (storage id : string) (w : world) : world :=
  fold_left (fun w ext => remove_file_ignored (Path.join storage (id +:+ "." +:+ ext)) w)
    icon_exts w.

(** [fn remove_app(id: String) -> Result<(), String>] (lib.rs 190-216) *)
Definition remove_app (e : env) (id : string) : M string unit :=
  let! '(storage, apps_dir) := map_err io_msg (ensure_dirs e) in
  let! ok_any := remove_bundles storage id ["AppImage"; "appimage"] false in
  fun w =>
    let w := remove_icon_files storage id w in
    let '(ok_any, w) :=
      if negb (in_flatpak_sandbox e) then
        let desktop := Path.join apps_dir (desktop_name id) in
        if exists_b desktop w then (true, remove_file_ignored desktop w)
        else (ok_any, w)
      else (ok_any, w) in
    if ok_any then (Ok tt, w) else (Err "App not found", w).

(** [Command::new(p).spawn()]: the process is started and not waited for. *)
Definition spawn (e : env) (p : string) : M io_error unit := fun w =>
  match can_exec e p w with
  | Err err => (Err err, w)
  | Ok _ => (Ok tt, mkWorld (w_fs w) (w_ro w) (w_spawned w ++ [p]))
  end.

(** [fn launch_app(id: String) -> Result<(), String>] (lib.rs 218-226) *)
Definition launch_app (e : env) (id : string) : M string unit :=
  let! '(storage, _) := map_err io_msg (ensure_dirs e) in
  fun w =>
    match list_find (fun p => exists_b p w = true)
            (map (fun x => Path.join storage (id +:+ "." +:+ x)) ["AppImage"; "appimage"]) with
    | None => (Err "AppImage not found", w)
    | Some (_, app_path) => map_err io_msg (spawn e app_path) w
    end.

(* ------------------------------------------------------------------ *)
(** ** The menu entry as the specification describes it *)

(** The lines of the descriptor: type marker, [Type=Application], the
    display name, the quoted bundle path with the [%U] placeholder,
    [Terminal=false], [Categories=Utility;], the icon line (empty without
    icon), and the two fixed X-AppImage lines. *)
Definition spec_desktop_lines (name exec_str : string) (icon : option string)
  : list string :=
  ["[Desktop Entry]"; "Type=Application"; "Name=" +:+ name;
   "Exec=" +:+ dquote +:+ exec_str +:+ dquote +:+ " %U";
   "Terminal=false"; "Categories=Utility;";
   match icon with Some p => "Icon=" +:+ p | None => "" end;
   "X-AppImage-Version=1"; "X-AppImage-Integrate=false"].

(** Each line followed by a newline. *)
Definition spec_desktop_text (name exec_str : string) (icon : option string)
  : string :=
  fold_right (fun l acc => l +:+ nl +:+ acc) "" (spec_desktop_lines name exec_str icon).

(* ------------------------------------------------------------------ *)
(** ** Sample inputs *)

(** A user [u] outside any sandbox; the bundle extracts to a tree with a
    [.DirIcon]. *)
Definition demo_env : env :=
  mkEnv (Some "/home/u/.local/share") (Some "/home/u") None None true
    (fun _ => true)
    (fun _ => Exited true [("squashfs-root", NDir);
                           ("squashfs-root/.DirIcon", NFile "PNG" 420%N)]).

(** The same user inside Flatpak. *)
Definition demo_env_flatpak : env :=
  mkEnv (Some "/home/u/.var/app/x/data") (Some "/home/u") (Some "x") None true
    (fun _ => true) (fun _ => Exited false []).

(** A menu directory holding an older entry for [myapp]. *)
Definition demo_menu_world : world :=
  mkWorld (<["/a/axec-myapp.desktop" := NFile "old" 384%N]> ∅) ∅ [].

Definition demo_world : world :=
  mkWorld (<["/tmp/MyApp-1.2.3_x86_64.AppImage" := NFile "ELF" 420%N]>
           (<["/home/u" := NDir]> ∅)) ∅ [].

(** [demo_env]'s storage and menu directories, holding a bundle [x] that
    is not executable ([0o644]) and a bundle [y] under the extension
    [.APPIMAGE], with a menu entry for [y]. *)
Definition demo_store_world : world :=
  mkWorld (<["/home/u/.local/share/axec/appimages" := NDir]>
           (<["/home/u/.local/share/applications" := NDir]>
           (<["/home/u/.local/share/axec/appimages/x.AppImage" := NFile "ELF" 420%N]>
           (<["/home/u/.local/share/axec/appimages/y.APPIMAGE" := NFile "ELF" 493%N]>
           (<["/home/u/.local/share/applications/axec-y.desktop" := NFile "[Desktop Entry]" 420%N]>
            ∅))))) ∅ [].

(* ================================================================== *)
(** * Properties *)

Open Scope list_scope.

(* ------------------------------------------------------------------ *)
(** ** Character and list facts *)

(** A statement about one character is decided by trying all 256. *)
Ltac all_chars c :=
  destruct c as [[] [] [] [] [] [] [] []]; vm_compute; intros;
  try reflexivity; try discriminate; try tauto; try (split; reflexivity).

Lemma list_string_roundtrip (l : list ascii) :
  list_ascii_of_string (string_of_list_ascii l) = l.
Proof. apply list_ascii_of_string_of_list_ascii. Qed.

Lemma list_ascii_of_string_append (s1 s2 : string) :
  list_ascii_of_string (s1 +:+ s2) = list_ascii_of_string s1 ++ list_ascii_of_string s2.
Proof. induction s1 as [|c s1 IH]; simpl; [done|by rewrite IH]. Qed.

Lemma drop_while_suffix (p : ascii -> bool) (l : list ascii) :
  exists pre, l = pre ++ Str.drop_while p l.
Proof.
  induction l as [|c l IH]; simpl; [by exists []|].
  destruct (p c); [destruct IH as [pre Hpre]; exists (c :: pre); simpl; congruence|].
  by exists [].
Qed.

Lemma drop_while_head (p : ascii -> bool) (l : list ascii) c t :
  Str.drop_while p l = c :: t -> p c = false.
Proof.
  induction l as [|d l IH]; simpl; [discriminate|].
  destruct (p d) eqn:Hd; [exact IH|]. intros [= -> _]. exact Hd.
Qed.

Lemma drop_while_app_keep (p : ascii -> bool) (l : list ascii) c :
  p c = false -> Str.drop_while p (l ++ [c]) = Str.drop_while p l ++ [c].
Proof.
  intros Hc. induction l as [|d l IH]; simpl; [by rewrite Hc|].
  by destruct (p d).
Qed.

Lemma drop_while_incl (p : ascii -> bool) (l : list ascii) x :
  In x (Str.drop_while p l) -> In x l.
Proof.
  destruct (drop_while_suffix p l) as [pre Hpre]. intros Hx.
  rewrite Hpre. apply in_or_app. by right.
Qed.

Lemma trim_matches_l_incl (p : ascii -> bool) (l : list ascii) x :
  In x (Str.trim_matches_l p l) -> In x l.
Proof.
  unfold Str.trim_matches_l. intros Hx.
  apply in_rev in Hx. apply drop_while_incl in Hx.
  apply in_rev in Hx. by apply drop_while_incl in Hx.
Qed.

Lemma trim_matches_l_last (p : ascii -> bool) (l : list ascii) c :
  last (Str.trim_matches_l p l) = Some c -> p c = false.
Proof.
  unfold Str.trim_matches_l.
  destruct (Str.drop_while p (rev (Str.drop_while p l))) as [|d t] eqn:E;
    simpl; [discriminate|].
  rewrite last_snoc. intros [= <-]. by eapply drop_while_head.
Qed.

Lemma trim_matches_l_head (p : ascii -> bool) (l : list ascii) c :
  head (Str.trim_matches_l p l) = Some c -> p c = false.
Proof.
  unfold Str.trim_matches_l.
  destruct (Str.drop_while p l) as [|d t] eqn:E; simpl; [discriminate|].
  pose proof (drop_while_head p l d t E) as Hd.
  rewrite (drop_while_app_keep p (rev t) d Hd), rev_app_distr. simpl.
  intros [= <-]. exact Hd.
Qed.

Lemma last_map_ascii (f : ascii -> ascii) (l : list ascii) :
  last (map f l) = f <$> last l.
Proof.
  induction l as [|c l IH]; [done|]. destruct l as [|d l]; [done|].
  simpl map. rewrite !last_cons_cons. exact IH.
Qed.

(** The characters of an identifier. *)
Definition is_id_char (c : ascii) : bool :=
  let n := code c in
  ((48 <=? n) && (n <=? 57))%nat || ((97 <=? n) && (n <=? 122))%nat
  || eqc c "-" || eqc c "_".

Definition sanitize_char (c : ascii) : ascii :=
  if is_ascii_alphanumeric c || eqc c "-" || eqc c "_" then c else "-"%char.

Lemma sanitize_char_lower (c : ascii) :
  is_id_char (Chars.to_lowercase (sanitize_char c)) = true.
Proof. all_chars c. Qed.

Lemma lower_dash (c : ascii) :
  Chars.to_lowercase (sanitize_char c) = "-"%char -> sanitize_char c = "-"%char.
Proof. all_chars c. Qed.

Lemma sanitize_filename_chars (s : string) :
  list_ascii_of_string (sanitize_filename s)
  = map Chars.to_lowercase
      (Str.trim_matches_l (fun c => eqc c "-")
         (map sanitize_char (list_ascii_of_string s))).
Proof.
  unfold sanitize_filename, Str.to_lowercase, Str.trim_matches.
  by rewrite !list_string_roundtrip.
Qed.

(* ------------------------------------------------------------------ *)
(** ** C3, C4: the identity deriver *)

(** C3 (as stated, refuted): on [MyApp-1.2.3_x86_64.AppImage] the display
    name is not [MyApp 1 2 3 x86 64]: [parse_appimage_name] keeps '-' and
    '_', and only the dots become spaces. *)
Lemma parse_appimage_name_example_differs :
  parse_appimage_name "MyApp-1.2.3_x86_64.AppImage" <> "MyApp 1 2 3 x86 64"
  /\ sanitize_filename (parse_appimage_name "MyApp-1.2.3_x86_64.AppImage")
     <> "myapp-1-2-3-x86-64".
Proof. split; vm_compute; discriminate. Qed.

(** C3 (amended): for the source file name [MyApp-1.2.3_x86_64.AppImage],
    [parse_appimage_name] returns the display name [MyApp-1 2 3_x86_64]
    and [sanitize_filename] of it returns the id [myapp-1-2-3_x86_64]. *)
Theorem parse_appimage_name_example :
  parse_appimage_name "MyApp-1.2.3_x86_64.AppImage" = "MyApp-1 2 3_x86_64"
  /\ sanitize_filename (parse_appimage_name "MyApp-1.2.3_x86_64.AppImage")
     = "myapp-1-2-3_x86_64".
Proof. split; reflexivity. Qed.

(** The shape of an identifier produced by [sanitize_filename]. *)
Lemma sanitize_filename_shape (s : string) :
  Forall (fun c => is_id_char c = true) (list_ascii_of_string (sanitize_filename s))
  /\ head (list_ascii_of_string (sanitize_filename s)) <> Some "-"%char
  /\ last (list_ascii_of_string (sanitize_filename s)) <> Some "-"%char.
Proof.
  rewrite sanitize_filename_chars.
  set (t := Str.trim_matches_l _ _).
  split; [|split].
  - apply List.Forall_forall. intros x Hx. apply in_map_iff in Hx as [y [<- Hy]].
    apply trim_matches_l_incl, in_map_iff in Hy as [c [<- _]].
    apply sanitize_char_lower.
  - destruct t as [|y t'] eqn:Et; simpl; [discriminate|].
    intros [= Hy].
    assert (Hh : head t = Some y) by (rewrite Et; reflexivity).
    apply trim_matches_l_head in Hh.
    assert (In y (map sanitize_char (list_ascii_of_string s))) as Hin.
    { apply (trim_matches_l_incl (fun c => eqc c "-")). fold t. rewrite Et. left; done. }
    apply in_map_iff in Hin as [c [<- _]].
    apply lower_dash in Hy. rewrite Hy in Hh. discriminate.
  - intros Hl.
    destruct (last t) as [y|] eqn:Et.
    + assert (Hin : In y t) by (apply last_Some_elem_of in Et; by apply list_elem_of_In).
      pose proof (trim_matches_l_last _ _ _ Et) as Hy.
      unfold t in Hin. apply trim_matches_l_incl, in_map_iff in Hin as [c [<- _]].
      rewrite last_map_ascii, Et in Hl. injection Hl as Hl.
      apply lower_dash in Hl. rewrite Hl in Hy. discriminate.
    + rewrite last_map_ascii, Et in Hl. discriminate.
Qed.

(** C4: every character of [sanitize_filename s] is a lowercase ASCII
    letter, a digit, '-' or '_', and the result neither starts nor ends
    with '-', for every input [s]. *)
Theorem sanitize_filename_charset (s : string) :
  Forall (fun c => is_id_char c = true) (list_ascii_of_string (sanitize_filename s))
  /\ head (list_ascii_of_string (sanitize_filename s)) <> Some "-"%char
  /\ last (list_ascii_of_string (sanitize_filename s)) <> Some "-"%char.
Proof. exact (sanitize_filename_shape s). Qed.

(* ------------------------------------------------------------------ *)
(** ** C7: adding a missing file *)

(** C7: when the source path does not exist, [add_appimage] fails with a
    message containing "not found" and leaves the world exactly as it was:
    no directory is created and no file is written. *)
Theorem add_appimage_missing_source (e : env) (file_path : string) (w : world) :
  exists_b file_path w = false ->
  exists msg, add_appimage e file_path w = (Err msg, w)
              /\ Str.contains "not found" msg = true.
Proof.
  intros Hx. exists "File not found". unfold add_appimage. rewrite Hx.
  split; reflexivity.
Qed.

Lemma add_appimage_missing_source_witness :
  exists_b "/tmp/nonexistent.AppImage" demo_world = false
  /\ exists msg, add_appimage demo_env "/tmp/nonexistent.AppImage" demo_world
                 = (Err msg, demo_world)
                 /\ Str.contains "not found" msg = true.
Proof.
  split; [reflexivity|].
  apply add_appimage_missing_source. reflexivity.
Defined.

(* ------------------------------------------------------------------ *)
(** ** C6: icon extraction never fails *)

(** C6: [extract_icon] returns an [option] (no error case exists), and when
    the extraction process cannot be started, or runs and exits with a
    failure status, it returns [None] and the world is unchanged: nothing
    in [target_dir] (or anywhere else) is created, modified or deleted. *)
Theorem extract_icon_failed_run (e : env) (appimage_path target_dir base_id : string)
  (w : world) :
  (exists err, can_exec e appimage_path w = Err err)
  \/ (exists content tree, can_exec e appimage_path w = Ok content
                           /\ env_extract e content = Exited false tree) ->
  extract_icon e appimage_path target_dir base_id w = (None, w).
Proof.
  intros H. unfold extract_icon.
  destruct (env_tempdir_ok e); [|reflexivity]. simpl.
  destruct H as [[err ->] | [c [tree [-> ->]]]]; reflexivity.
Qed.

Lemma extract_icon_failed_run_witness :
  can_exec demo_env_flatpak "/s/a.AppImage"
    (mkWorld (<["/s/a.AppImage" := NFile "ELF" 493%N]> ∅) ∅ []) = Ok "ELF"
  /\ extract_icon demo_env_flatpak "/s/a.AppImage" "/s" "a"
       (mkWorld (<["/s/a.AppImage" := NFile "ELF" 493%N]> ∅) ∅ [])
     = (None, mkWorld (<["/s/a.AppImage" := NFile "ELF" 493%N]> ∅) ∅ []).
Proof.
  split; [reflexivity|].
  apply extract_icon_failed_run. right. exists "ELF", []. split; reflexivity.
Defined.

(* ------------------------------------------------------------------ *)
(** ** C9: the desktop file *)

Lemma string_append_cons (x : ascii) (a b : string) :
  String x a +:+ b = String x (a +:+ b).
Proof. reflexivity. Qed.

Lemma string_append_assoc (a b c : string) : (a +:+ b) +:+ c = a +:+ (b +:+ c).
Proof.
  induction a as [|x a IH]; [reflexivity|].
  rewrite !string_append_cons. by rewrite IH.
Qed.

Lemma string_append_nil (a : string) : a +:+ "" = a.
Proof.
  induction a as [|x a IH]; [reflexivity|]. rewrite string_append_cons. by rewrite IH.
Qed.

Lemma desktop_content_spec (name exec_str : string) (icon : option string) :
  desktop_content name exec_str icon = spec_desktop_text name exec_str icon.
Proof.
  unfold desktop_content, spec_desktop_text, spec_desktop_lines. simpl fold_right.
  rewrite string_append_nil.
  destruct icon; rewrite ?string_append_assoc; reflexivity.
Qed.

(** C9: when [write_desktop_file] succeeds, the file at the entry path
    holds exactly the descriptor text (the nine lines of
    [spec_desktop_lines], each ended by a newline), whatever was there
    before: the new file system is the old one with that path set to this
    text, and nothing else changes. *)
Theorem write_desktop_file_content (name exec_path : string) (icon : option string)
  (desktop_path : string) (w w' : world) :
  write_desktop_file name exec_path icon desktop_path w = (Ok tt, w') ->
  exists mode,
    w_fs w' = <[desktop_path := NFile (spec_desktop_text name exec_path icon) mode]> (w_fs w)
    /\ w_ro w' = w_ro w /\ w_spawned w' = w_spawned w.
Proof.
  unfold write_desktop_file. rewrite desktop_content_spec.
  destruct (w_fs w !! desktop_path) as [[c m|]|] eqn:Hl;
    [| discriminate | ];
    (case_bool_decide; [discriminate|]); intros [= <-]; eexists; done.
Qed.

Lemma write_desktop_file_content_witness :
  exists w',
    write_desktop_file "MyApp" "/s/myapp.AppImage" None "/a/axec-myapp.desktop"
      demo_menu_world = (Ok tt, w')
    /\ exists mode,
         w_fs w' = <["/a/axec-myapp.desktop" :=
                       NFile (spec_desktop_text "MyApp" "/s/myapp.AppImage" None) mode]>
                     (w_fs demo_menu_world)
         /\ w_ro w' = w_ro demo_menu_world /\ w_spawned w' = w_spawned demo_menu_world.
Proof.
  eexists. split; [reflexivity|].
  apply write_desktop_file_content. reflexivity.
Defined.

(* ------------------------------------------------------------------ *)
(** ** Path facts *)

Lemma eqc_refl (c : ascii) : eqc c c = true.
Proof. apply Ascii.eqb_refl. Qed.

Lemma eqc_true (c d : ascii) : eqc c d = true -> c = d.
Proof. apply Ascii.eqb_eq. Qed.

Lemma split_slash_nonempty (l : list ascii) : Path.split_slash l <> [].
Proof.
  induction l as [|c l IH]; simpl; [discriminate|].
  destruct (eqc c "/"); [discriminate|].
  destruct (Path.split_slash l); [contradiction|discriminate].
Qed.

Lemma split_slash_noslash (l : list ascii) :
  forallb (fun c => negb (eqc c "/")) l = true -> Path.split_slash l = [l].
Proof.
  induction l as [|c l IH]; simpl; [done|].
  intros [Hc Hl]%andb_prop. destruct (eqc c "/"); [discriminate|].
  by rewrite IH.
Qed.

Lemma split_slash_app (x n : list ascii) :
  Path.split_slash (x ++ "/"%char :: n) = Path.split_slash x ++ Path.split_slash n.
Proof.
  induction x as [|c x IH]; [reflexivity|].
  simpl. rewrite IH. destruct (eqc c "/"); [reflexivity|].
  pose proof (split_slash_nonempty x) as Hne.
  destruct (Path.split_slash x); [contradiction|reflexivity].
Qed.

(** The pieces of a path to which a relative name was pushed. *)
Definition path_head (pre : list ascii) : Prop :=
  pre = [] \/ exists x, pre = x ++ ["/"%char].

Lemma file_name_l_push (pre n : list ascii) :
  path_head pre -> is_entry_name n = true -> Path.file_name_l (pre ++ n) = Some n.
Proof.
  unfold is_entry_name. intros Hpre Hn.
  apply andb_prop in Hn as [Hn Hdd]. apply andb_prop in Hn as [Hn Hd].
  apply andb_prop in Hn as [Hne Hns].
  assert (Hkeep : (negb (bool_decide (n = [])) && negb (Path.is_dot n)) = true).
  { by rewrite Hne, Hd. }
  unfold Path.file_name_l.
  destruct Hpre as [-> | [x ->]].
  - simpl. rewrite split_slash_noslash by exact Hns. simpl. rewrite Hkeep. simpl.
    destruct (Path.is_dotdot n); [discriminate|reflexivity].
  - rewrite <- app_assoc. simpl. rewrite split_slash_app, (split_slash_noslash n Hns).
    rewrite List.filter_app. simpl. rewrite Hkeep, last_snoc.
    destruct (Path.is_dotdot n); [discriminate|reflexivity].
Qed.

Lemma dir_prefix_head (s : string) : path_head (list_ascii_of_string (Path.dir_prefix s)).
Proof.
  unfold Path.dir_prefix. destruct s as [|c s]; [by left|].
  destruct (Path.ends_with_slash (String c s)) eqn:He.
  - right. unfold Path.ends_with_slash in He.
    destruct (last (list_ascii_of_string (String c s))) as [d|] eqn:Hl; [|discriminate].
    apply last_Some in Hl as [l' Hl']. apply eqc_true in He. subst d.
    exists l'. exact Hl'.
  - right. exists (list_ascii_of_string (String c s)).
    by rewrite list_ascii_of_string_append.
Qed.

Lemma join_relative (d n : string) :
  Path.starts_with_slash n = false -> Path.join d n = Path.dir_prefix d +:+ n.
Proof. unfold Path.join. by intros ->. Qed.

Lemma strip_prefix_app (pre n : list ascii) : strip_prefix pre (pre ++ n) = Some n.
Proof. induction pre as [|c pre IH]; simpl; [done|]. by rewrite eqc_refl. Qed.

Lemma strip_prefix_Some (pre l n : list ascii) :
  strip_prefix pre l = Some n -> l = pre ++ n.
Proof.
  revert l. induction pre as [|c pre IH]; intros [|d l]; simpl; try congruence.
  destruct (eqc c d) eqn:E; [|discriminate].
  apply eqc_true in E as ->. intros H. f_equal. by apply IH.
Qed.

Lemma split_last_dot_none (l : list ascii) :
  forallb (fun c => negb (eqc c ".")) l = true -> Path.split_last_dot l = None.
Proof.
  induction l as [|c l IH]; simpl; [done|].
  intros [Hc Hl]%andb_prop. rewrite IH by exact Hl.
  destruct (eqc c "."); [discriminate|reflexivity].
Qed.

Lemma split_last_dot_app (a b : list ascii) :
  forallb (fun c => negb (eqc c ".")) b = true ->
  Path.split_last_dot (a ++ "."%char :: b) = Some (a, b).
Proof.
  intros Hb. induction a as [|c a IH]; simpl.
  - by rewrite split_last_dot_none.
  - by rewrite IH.
Qed.

Lemma entry_name_no_leading_slash (nm : string) :
  is_entry_name (list_ascii_of_string nm) = true -> Path.starts_with_slash nm = false.
Proof.
  destruct nm as [|c nm]; [reflexivity|]. unfold is_entry_name. simpl.
  destruct (eqc c "/") eqn:E; [|reflexivity].
  intros H. exfalso. simpl in H.
  rewrite ?andb_false_r, ?andb_false_l in H. discriminate.
Qed.

Lemma push_list (s nm : string) :
  is_entry_name (list_ascii_of_string nm) = true ->
  list_ascii_of_string (Path.join s nm)
  = list_ascii_of_string (Path.dir_prefix s) ++ list_ascii_of_string nm.
Proof.
  intros H. rewrite join_relative by (by apply entry_name_no_leading_slash).
  apply list_ascii_of_string_append.
Qed.

Lemma file_name_l_join (s nm : string) :
  is_entry_name (list_ascii_of_string nm) = true ->
  Path.file_name_l (list_ascii_of_string (Path.join s nm)) = Some (list_ascii_of_string nm).
Proof.
  intros H. rewrite push_list by exact H.
  apply file_name_l_push; [apply dir_prefix_head|exact H].
Qed.

Lemma is_entry_name_not_dotdot (n : list ascii) :
  is_entry_name n = true -> Path.is_dotdot n = false.
Proof.
  unfold is_entry_name. intros H. apply andb_prop in H as [_ H].
  by destruct (Path.is_dotdot n).
Qed.

(** Extension and stem of [s/i.ext]. *)
Lemma push_parts (s nm : string) (i ext : list ascii) :
  list_ascii_of_string nm = i ++ "."%char :: ext -> i <> [] ->
  forallb (fun c => negb (eqc c ".")) ext = true ->
  is_entry_name (list_ascii_of_string nm) = true ->
  Path.extension (Path.join s nm) = Some (string_of_list_ascii ext)
  /\ Path.file_stem (Path.join s nm) = Some (string_of_list_ascii i).
Proof.
  intros Hnm Hi Hext Hen.
  unfold Path.extension, Path.file_stem. rewrite file_name_l_join by exact Hen.
  unfold Path.rsplit_file_at_dot.
  rewrite (is_entry_name_not_dotdot _ Hen), Hnm, split_last_dot_app by exact Hext.
  destruct i as [|c i]; [contradiction|]. split; reflexivity.
Qed.

Lemma entry_of_join (s nm : string) :
  is_entry_name (list_ascii_of_string nm) = true ->
  entry_of s (Path.join s nm) = Some nm.
Proof.
  intros H. unfold entry_of. rewrite push_list, strip_prefix_app by exact H.
  rewrite H. by rewrite string_of_list_ascii_of_string.
Qed.

Lemma read_dir_has (s nm : string) (w : world) (nd : node) :
  is_dir s w = true -> w_fs w !! Path.join s nm = Some nd ->
  is_entry_name (list_ascii_of_string nm) = true ->
  exists names, read_dir s w = Some names /\ nm ∈ names.
Proof.
  intros Hd Hk Hen. unfold read_dir, is_dir in *.
  destruct (w_fs w !! s) as [[|]|]; try discriminate.
  eexists. split; [reflexivity|].
  apply list_elem_of_omap. exists (Path.join s nm, nd). split.
  - by apply elem_of_map_to_list.
  - by apply entry_of_join.
Qed.

(** When both directories already exist, [ensure_dirs] finds them and
    changes nothing. *)
Lemma ensure_dirs_existing (e : env) (dd apps : string) (w : world) :
  env_data_dir e = Some dd -> apps_of e dd = Ok apps ->
  is_dir (storage_of dd) w = true -> is_dir apps w = true ->
  ensure_dirs e w = (Ok (storage_of dd, apps), w).
Proof.
  intros Hdd Happs Hs Ha. unfold ensure_dirs. rewrite Hdd, Happs.
  unfold mbind, create_dir_all. cbv beta. rewrite Hs, orb_true_r. cbv beta iota.
  rewrite Ha, orb_true_r. reflexivity.
Qed.

(* ------------------------------------------------------------------ *)
(** ** C8: launching *)

(** C8 (as stated, refuted): a stored bundle that exists but cannot be
    executed is not launched with success: [launch_app] returns the spawn
    error. *)
Lemma launch_app_spawn_error :
  exists_b "/home/u/.local/share/axec/appimages/x.AppImage" demo_store_world = true
  /\ launch_app demo_env "x" demo_store_world
     = (Err "Permission denied (os error 13)", demo_store_world).
Proof. split; vm_compute; reflexivity. Qed.

(** Launching in a world where the storage and menu directories exist:
    - if neither [{id}.AppImage] nor [{id}.appimage] exists, [launch_app]
      fails with a message containing "not found" and starts nothing;
    - otherwise it takes [{id}.AppImage] if present, else [{id}.appimage];
      if exec can start that file, the process is recorded as started and
      [launch_app] succeeds at once, without waiting for it; if exec
      refuses it, the spawn error is returned and nothing is started. *)
Lemma launch_app_outcome_at (e : env) (i dd apps : string) (w : world) :
  env_data_dir e = Some dd -> apps_of e dd = Ok apps ->
  is_dir (storage_of dd) w = true -> is_dir apps w = true ->
  let p1 := Path.join (storage_of dd) (i +:+ ".AppImage") in
  let p2 := Path.join (storage_of dd) (i +:+ ".appimage") in
  (exists_b p1 w = false -> exists_b p2 w = false ->
   exists msg, launch_app e i w = (Err msg, w) /\ Str.contains "not found" msg = true)
  /\ (forall p, (exists_b p1 w = true /\ p = p1)
                \/ (exists_b p1 w = false /\ exists_b p2 w = true /\ p = p2) ->
      (forall c, can_exec e p w = Ok c ->
         launch_app e i w = (Ok tt, mkWorld (w_fs w) (w_ro w) (w_spawned w ++ [p])))
      /\ (forall err, can_exec e p w = Err err ->
         launch_app e i w = (Err (io_msg err), w))).
Proof.
  intros Hdd Happs Hs Ha p1 p2.
  assert (Hl : launch_app e i w =
    match list_find (fun p => exists_b p w = true) [p1; p2] with
    | None => (Err "AppImage not found", w)
    | Some (_, app_path) => map_err io_msg (spawn e app_path) w
    end).
  { unfold launch_app, mbind, map_err at 1.
    rewrite (ensure_dirs_existing e dd apps w Hdd Happs Hs Ha). reflexivity. }
  rewrite Hl. simpl list_find.
  split.
  - intros H1 H2. exists "AppImage not found".
    rewrite decide_False by (rewrite H1; discriminate).
    rewrite decide_False by (rewrite H2; discriminate).
    split; reflexivity.
  - intros p Hp.
    assert (Hf : exists k, list_find (fun p => exists_b p w = true) [p1; p2] = Some (k, p)).
    { destruct Hp as [[H1 ->] | [H1 [H2 ->]]]; simpl.
      - rewrite decide_True by exact H1. by eexists.
      - rewrite decide_False by (rewrite H1; discriminate).
        rewrite decide_True by exact H2. by eexists. }
    destruct Hf as [k Hf].
    split.
    + intros c Hc. simpl in Hf. rewrite Hf. unfold map_err, spawn. by rewrite Hc.
    + intros err Herr. simpl in Hf. rewrite Hf. unfold map_err, spawn. by rewrite Herr.
Qed.

(* ------------------------------------------------------------------ *)
(** ** Distinct artifact paths *)

Lemma string_app_neq_nil_r (a b : string) : b <> "" -> a +:+ b <> "".
Proof. intros Hb. destruct a as [|c a]; [exact Hb|]. rewrite string_append_cons. discriminate. Qed.

Lemma last_string_app (a b : string) :
  b <> "" -> last (list_ascii_of_string (a +:+ b)) = last (list_ascii_of_string b).
Proof.
  intros Hb. rewrite list_ascii_of_string_append, last_app.
  destruct b as [|c b]; [contradiction|].
  destruct (last (list_ascii_of_string (String c b))) eqn:E; [done|].
  apply last_None in E. discriminate.
Qed.

Lemma last_join (d n : string) :
  n <> "" -> last (list_ascii_of_string (Path.join d n)) = last (list_ascii_of_string n).
Proof.
  intros Hn. unfold Path.join. destruct (Path.starts_with_slash n); [done|].
  by apply last_string_app.
Qed.

Lemma last_dotted (i x : string) :
  x <> "" -> last (list_ascii_of_string (i +:+ "." +:+ x)) = last (list_ascii_of_string x).
Proof.
  intros Hx. rewrite last_string_app by (apply string_app_neq_nil_r; exact Hx).
  by rewrite (last_string_app "." x Hx).
Qed.

Lemma last_desktop (apps i : string) :
  last (list_ascii_of_string (Path.join apps (desktop_name i))) = Some "p"%char.
Proof.
  unfold desktop_name.
  rewrite last_join by (apply string_app_neq_nil_r, string_app_neq_nil_r; discriminate).
  rewrite last_string_app by (apply string_app_neq_nil_r; discriminate).
  rewrite last_string_app by discriminate. reflexivity.
Qed.

Lemma last_artifact (d i x : string) :
  x <> "" -> last (list_ascii_of_string (Path.join d (i +:+ "." +:+ x)))
             = last (list_ascii_of_string x).
Proof.
  intros Hx. rewrite last_join by (apply string_app_neq_nil_r, string_app_neq_nil_r; exact Hx).
  by apply last_dotted.
Qed.

(** The icon paths [remove_app] deletes. *)
Definition icon_paths (storage i : string) : list string :=
  map (fun x => Path.join storage (i +:+ "." +:+ x)) icon_exts.

Lemma icon_path_last (storage i q : string) :
  q ∈ icon_paths storage i ->
  last (list_ascii_of_string q) ∈ [Some "g"%char; Some "o"%char; Some "m"%char].
Proof.
  unfold icon_paths, icon_exts. intros Hq.
  apply list_elem_of_fmap in Hq as [x [-> Hx]].
  repeat (apply elem_of_cons in Hx as [-> | Hx];
    [rewrite last_artifact by discriminate; vm_compute; set_solver|]).
  by apply elem_of_nil in Hx.
Qed.

Lemma desktop_not_icon (storage apps i : string) :
  Path.join apps (desktop_name i) ∉ icon_paths storage i.
Proof.
  intros H. apply icon_path_last in H. rewrite last_desktop in H.
  repeat (apply elem_of_cons in H as [H | H]; [discriminate|]).
  by apply elem_of_nil in H.
Qed.

Lemma bundle_not_icon (storage i x : string) :
  x ∈ ["AppImage"; "appimage"] ->
  Path.join storage (i +:+ "." +:+ x) ∉ icon_paths storage i.
Proof.
  intros Hx H. apply icon_path_last in H.
  rewrite last_artifact in H by (intros ->; set_solver).
  apply elem_of_cons in Hx as [-> | Hx];
    [|apply elem_of_cons in Hx as [-> | Hx]; [|by apply elem_of_nil in Hx]];
    vm_compute in H;
    (repeat (apply elem_of_cons in H as [H | H]; [discriminate|]));
    by apply elem_of_nil in H.
Qed.

(* ------------------------------------------------------------------ *)
(** ** Facts about [remove_app]'s steps *)

Lemma remove_file_other (p q : string) (w : world) :
  p <> q -> w_fs (snd (remove_file p w)) !! q = w_fs w !! q.
Proof.
  intros Hpq. unfold remove_file.
  destruct (w_fs w !! p) as [[|]|]; try reflexivity.
  case_bool_decide; [reflexivity|]. simpl. by rewrite lookup_delete_ne.
Qed.

Lemma remove_file_ro (p : string) (w : world) :
  w_ro (snd (remove_file p w)) = w_ro w.
Proof.
  unfold remove_file. destruct (w_fs w !! p) as [[|]|]; try reflexivity.
  by case_bool_decide.
Qed.

Lemma remove_file_absent (p q : string) (w : world) :
  w_fs w !! q = None -> w_fs (snd (remove_file p w)) !! q = None.
Proof.
  intros Hq. destruct (decide (p = q)) as [->|Hpq]; [|by rewrite remove_file_other].
  unfold remove_file. rewrite Hq. exact Hq.
Qed.

Lemma remove_file_err (p : string) (w : world) (err : io_error) (w' : world) :
  remove_file p w = (Err err, w') -> err ∈ [ENOENT; EISDIR; EACCES].
Proof.
  unfold remove_file. destruct (w_fs w !! p) as [[|]|];
    [case_bool_decide| |]; intros [= <- _]; set_solver.
Qed.

Lemma io_msg_no_not_found (err : io_error) :
  err ∈ [ENOENT; EISDIR; EACCES] -> Str.contains "not found" (io_msg err) = false.
Proof.
  intros H. repeat (apply elem_of_cons in H as [-> | H]; [reflexivity|]).
  by apply elem_of_nil in H.
Qed.

Lemma remove_bundles_err (s i : string) (exts : list string) (ok : bool) (w : world)
  (msg : string) (w' : world) :
  remove_bundles s i exts ok w = (Err msg, w') ->
  exists err, msg = io_msg err /\ err ∈ [ENOENT; EISDIR; EACCES].
Proof.
  revert ok w. induction exts as [|x exts IH]; intros ok w; simpl; [discriminate|].
  destruct (exists_b _ w); [|apply IH].
  unfold mbind, map_err.
  destruct (remove_file _ w) as [[[]|err] w1] eqn:E; [apply IH|].
  intros [= <- _]. exists err. split; [done|]. by eapply remove_file_err.
Qed.

Lemma remove_bundles_true (s i : string) (exts : list string) (w : world)
  (b : bool) (w' : world) :
  remove_bundles s i exts true w = (Ok b, w') -> b = true.
Proof.
  revert w. induction exts as [|x exts IH]; intros w; simpl; [by intros [= <- _]|].
  destruct (exists_b _ w); [|apply IH].
  unfold mbind, map_err.
  destruct (remove_file _ w) as [[[]|err] w1]; [apply IH|discriminate].
Qed.

(** The bundle loop finds nothing exactly when no candidate exists, and
    then it changes nothing. *)
Lemma remove_bundles_false (s i : string) (exts : list string) (ok : bool)
  (w w' : world) :
  remove_bundles s i exts ok w = (Ok false, w') ->
  ok = false /\ w' = w
  /\ Forall (fun x => exists_b (Path.join s (i +:+ "." +:+ x)) w = false) exts.
Proof.
  revert ok w. induction exts as [|x exts IH]; intros ok w; simpl.
  - intros [= -> ->]. auto.
  - destruct (exists_b _ w) eqn:Ex.
    + unfold mbind, map_err.
      destruct (remove_file _ w) as [[[]|err] w1]; [|discriminate].
      intros H. apply remove_bundles_true in H. discriminate.
    + intros H. apply IH in H as [-> [-> H]]. auto.
Qed.

Lemma remove_bundles_none (s i : string) (exts : list string) (w : world) :
  Forall (fun x => exists_b (Path.join s (i +:+ "." +:+ x)) w = false) exts ->
  remove_bundles s i exts false w = (Ok false, w).
Proof.
  induction 1 as [|x exts Hx _ IH]; simpl; [reflexivity|]. by rewrite Hx.
Qed.

Lemma remove_bundles_ro (s i : string) (exts : list string) (ok : bool) (w : world)
  (r : result bool string) (w' : world) :
  remove_bundles s i exts ok w = (r, w') -> w_ro w' = w_ro w.
Proof.
  revert ok w. induction exts as [|x exts IH]; intros ok w; simpl; [by intros [= _ <-]|].
  destruct (exists_b _ w); [|apply IH].
  unfold mbind, map_err.
  destruct (remove_file _ w) as [[[]|err] w1] eqn:E.
  - intros H. apply IH in H. rewrite H.
    pose proof (remove_file_ro (Path.join s (i +:+ "." +:+ x)) w) as Hro.
    rewrite E in Hro. exact Hro.
  - intros [= _ <-]. pose proof (remove_file_ro (Path.join s (i +:+ "." +:+ x)) w) as Hro.
    rewrite E in Hro. exact Hro.
Qed.

Lemma remove_icons_other (s i q : string) (w : world) :
  q ∉ icon_paths s i ->
  w_fs (remove_icon_files s i w) !! q = w_fs w !! q.
Proof.
  unfold icon_paths, remove_icon_files. generalize icon_exts as xs. intros xs.
  revert w. induction xs as [|x xs IH]; intros w Hq; simpl; [reflexivity|].
  rewrite IH by (intros H; apply Hq; simpl; by apply elem_of_cons; right).
  unfold remove_file_ignored. apply remove_file_other.
  intros Heq. apply Hq. rewrite <- Heq. simpl. apply elem_of_cons. by left.
Qed.

Lemma remove_icons_absent (s i q : string) (w : world) :
  w_fs w !! q = None ->
  w_fs (remove_icon_files s i w) !! q = None.
Proof.
  unfold remove_icon_files.
  generalize icon_exts as xs. intros xs.
  revert w. induction xs as [|x xs IH]; intros w Hq; simpl; [exact Hq|].
  apply IH. by apply remove_file_absent.
Qed.

(** What [remove_app] returns once the directories exist. *)
Lemma remove_app_result (e : env) (i dd apps : string) (w : world) :
  env_data_dir e = Some dd -> apps_of e dd = Ok apps ->
  is_dir (storage_of dd) w = true -> is_dir apps w = true ->
  fst (remove_app e i w) =
  match remove_bundles (storage_of dd) i ["AppImage"; "appimage"] false w with
  | (Err m, _) => Err m
  | (Ok ok, w1) =>
      if ok || (negb (in_flatpak_sandbox e)
                && exists_b (Path.join apps (desktop_name i))
                            (remove_icon_files (storage_of dd) i w1))
      then Ok tt else Err "App not found"
  end.
Proof.
  intros Hdd Happs Hs Ha. unfold remove_app, mbind, map_err at 1.
  rewrite (ensure_dirs_existing e dd apps w Hdd Happs Hs Ha). cbv beta iota.
  destruct (remove_bundles _ _ _ _ w) as [[ok|m] w1]; [|reflexivity].
  destruct (in_flatpak_sandbox e), ok; simpl; [reflexivity..| |];
    destruct (exists_b _ _); reflexivity.
Qed.

(** Two worlds that agree on every path outside [X]. *)
Definition agree_off (X : list string) (w1 w2 : world) : Prop :=
  forall q, q ∉ X -> w_fs w1 !! q = w_fs w2 !! q /\ (q ∈ w_ro w1 <-> q ∈ w_ro w2).

Lemma agree_off_exists (X : list string) (w1 w2 : world) (q : string) :
  agree_off X w1 w2 -> q ∉ X -> exists_b q w1 = exists_b q w2.
Proof. intros H Hq. unfold exists_b. by rewrite (proj1 (H q Hq)). Qed.

Lemma remove_file_agree (X : list string) (p : string) (w1 w2 : world) :
  agree_off X w1 w2 ->
  agree_off X (snd (remove_file p w1)) (snd (remove_file p w2))
  /\ (p ∉ X -> fst (remove_file p w1) = fst (remove_file p w2)).
Proof.
  intros H. split.
  - intros q Hq. rewrite !remove_file_ro.
    destruct (decide (p = q)) as [<-|Hpq].
    + destruct (H p Hq) as [Hl Hro]. unfold remove_file. rewrite Hl.
      destruct (w_fs w2 !! p) as [[|]|] eqn:E2; simpl; try (split; [congruence|exact Hro]).
      destruct (decide (p ∈ w_ro w1)) as [H1|H1].
      * rewrite bool_decide_true by exact H1. rewrite bool_decide_true by tauto.
        simpl. split; [congruence|exact Hro].
      * rewrite bool_decide_false by exact H1. rewrite bool_decide_false by tauto.
        simpl. rewrite !lookup_delete_eq. split; [done|exact Hro].
    + rewrite !remove_file_other by exact Hpq. exact (H q Hq).
  - intros Hp. destruct (H p Hp) as [Hl Hro]. unfold remove_file. rewrite Hl.
    destruct (w_fs w2 !! p) as [[|]|]; try reflexivity.
    destruct (decide (p ∈ w_ro w1)) as [H1|H1].
    + rewrite bool_decide_true by exact H1. by rewrite bool_decide_true by tauto.
    + rewrite bool_decide_false by exact H1. by rewrite bool_decide_false by tauto.
Qed.

Lemma remove_bundles_agree (X : list string) (s i : string) (exts : list string)
  (ok : bool) (w1 w2 : world) :
  (forall x, x ∈ exts -> Path.join s (i +:+ "." +:+ x) ∉ X) ->
  agree_off X w1 w2 ->
  fst (remove_bundles s i exts ok w1) = fst (remove_bundles s i exts ok w2)
  /\ agree_off X (snd (remove_bundles s i exts ok w1)) (snd (remove_bundles s i exts ok w2)).
Proof.
  revert ok w1 w2. induction exts as [|x exts IH]; intros ok w1 w2 HX H; simpl; [done|].
  assert (Hx : Path.join s (i +:+ "." +:+ x) ∉ X) by (apply HX; set_solver).
  assert (HX' : forall y, y ∈ exts -> Path.join s (i +:+ "." +:+ y) ∉ X)
    by (intros y Hy; apply HX; set_solver).
  rewrite (agree_off_exists X w1 w2 _ H Hx).
  destruct (exists_b _ w2); [|by apply IH].
  destruct (remove_file_agree X (Path.join s (i +:+ "." +:+ x)) w1 w2 H) as [Hw Hr].
  specialize (Hr Hx).
  unfold mbind, map_err.
  destruct (remove_file _ w1) as [r1 v1], (remove_file _ w2) as [r2 v2].
  simpl in Hw, Hr. subst r2.
  destruct r1 as [[]|err]; [by apply IH|]. simpl. split; [done|exact Hw].
Qed.

Lemma remove_icon_files_agree (X : list string) (s i : string) (w1 w2 : world) :
  agree_off X w1 w2 -> agree_off X (remove_icon_files s i w1) (remove_icon_files s i w2).
Proof.
  unfold remove_icon_files. generalize icon_exts as xs. intros xs.
  revert w1 w2. induction xs as [|x xs IH]; intros w1 w2 H; simpl; [exact H|].
  apply IH. unfold remove_file_ignored. by apply remove_file_agree.
Qed.

(* ------------------------------------------------------------------ *)
(** ** C5: when [remove_app] reports "not found" *)

(** A user without a home directory, outside any sandbox. *)
Definition demo_env_nohome : env :=
  mkEnv (Some "/home/u/.local/share") None None None true
    (fun _ => true) (fun _ => Exited false []).

(** C5 (as stated, refuted): [remove_app] can fail with a "not found"
    message although the bundle [x.AppImage] is in storage: when the home
    directory is unknown, [ensure_dirs] fails first with "HOME not found". *)
Lemma remove_app_home_not_found :
  exists_b "/home/u/.local/share/axec/appimages/x.AppImage" demo_store_world = true
  /\ remove_app demo_env_nohome "x" demo_store_world
     = (Err "HOME not found", demo_store_world)
  /\ Str.contains "not found" "HOME not found" = true.
Proof. split; [|split]; vm_compute; reflexivity. Qed.

(** Removing in a world where the storage and menu directories exist:
    [remove_app id] fails with a message containing "not found" if and only
    if neither [{id}.AppImage] nor [{id}.appimage] exists in storage and,
    outside the sandbox, [axec-{id}.desktop] does not exist in the menu
    directory; and two worlds that differ only in the icon files
    [{id}.png|svg|ico|xpm] (whether they exist, and whether deleting them
    succeeds) give the same result. *)
Lemma remove_app_not_found_at (e : env) (i dd apps : string) (w : world) :
  env_data_dir e = Some dd -> apps_of e dd = Ok apps ->
  is_dir (storage_of dd) w = true -> is_dir apps w = true ->
  ((exists msg w', remove_app e i w = (Err msg, w')
                   /\ Str.contains "not found" msg = true)
   <-> (exists_b (Path.join (storage_of dd) (i +:+ ".AppImage")) w = false
        /\ exists_b (Path.join (storage_of dd) (i +:+ ".appimage")) w = false
        /\ (in_flatpak_sandbox e = true
            \/ exists_b (Path.join apps (desktop_name i)) w = false)))
  /\ (forall w2, agree_off (icon_paths (storage_of dd) i) w w2 ->
       is_dir (storage_of dd) w2 = true -> is_dir apps w2 = true ->
       fst (remove_app e i w) = fst (remove_app e i w2)).
Proof.
  intros Hdd Happs Hs Ha.
  pose proof (remove_app_result e i dd apps w Hdd Happs Hs Ha) as Hres.
  pose proof (desktop_not_icon (storage_of dd) apps i) as Hdi.
  split; [split|].
  - intros [msg [w' [Hr Hc]]]. rewrite Hr in Hres. change (fst (Err msg, w')) with (@Err unit string msg) in Hres.
    destruct (remove_bundles _ _ _ _ w) as [[ok|m] w1] eqn:Eb.
    + destruct (ok || _) eqn:Eok; [discriminate|].
      apply orb_false_iff in Eok as [-> Hd].
      apply remove_bundles_false in Eb as [_ [-> Hf]].
      inversion Hf as [|? ? H1 Hf1]; subst. inversion Hf1 as [|? ? H2 _]; subst.
      split; [exact H1|]. split; [exact H2|].
      destruct (in_flatpak_sandbox e); [by left|right].
      simpl in Hd. unfold exists_b in *.
      by rewrite remove_icons_other in Hd by exact Hdi.
    + injection Hres as ->. apply remove_bundles_err in Eb as [err [-> Herr]].
      rewrite io_msg_no_not_found in Hc by exact Herr. discriminate.
  - intros [H1 [H2 H3]].
    rewrite remove_bundles_none in Hres by (repeat constructor; assumption).
    assert (Hd : (negb (in_flatpak_sandbox e)
                  && exists_b (Path.join apps (desktop_name i))
                       (remove_icon_files (storage_of dd) i w)) = false).
    { destruct H3 as [-> | H3]; [reflexivity|].
      apply andb_false_intro2. unfold exists_b in H3 |- *.
      apply bool_decide_eq_false. apply bool_decide_eq_false in H3.
      rewrite remove_icons_absent; [by intros [? ?]|].
      destruct (w_fs w !! Path.join apps (desktop_name i)) eqn:E; [|reflexivity].
      exfalso. apply H3. by eexists. }
    cbv beta iota in Hres. rewrite orb_false_l, Hd in Hres.
    destruct (remove_app e i w) as [r w'] eqn:Er. cbn [fst] in Hres. subst r.
    exists "App not found", w'. split; reflexivity.
  - intros w2 Hag Hs2 Ha2.
    rewrite Hres, (remove_app_result e i dd apps w2 Hdd Happs Hs2 Ha2).
    destruct (remove_bundles_agree (icon_paths (storage_of dd) i) (storage_of dd) i
                ["AppImage"; "appimage"] false w w2) as [Hf Hw];
      [intros x Hx; by apply bundle_not_icon | exact Hag |].
    destruct (remove_bundles _ _ _ _ w) as [r1 v1], (remove_bundles _ _ _ _ w2) as [r2 v2].
    simpl in Hf, Hw. subst r2.
    destruct r1 as [ok|m]; [|reflexivity].
    rewrite (agree_off_exists _ _ _ _ (remove_icon_files_agree _ _ _ _ _ Hw) Hdi).
    reflexivity.
Qed.

(* ------------------------------------------------------------------ *)
(** ** C10: extensions in other letter cases *)

Lemma map_lower_forallb (P : ascii -> bool) (l : list ascii) :
  (forall c, P (Chars.to_ascii_lowercase c) = true -> P c = true) ->
  forallb P (map Chars.to_ascii_lowercase l) = true -> forallb P l = true.
Proof.
  intros HP. induction l as [|c l IH]; simpl; [done|].
  intros [Hc Hl]%andb_prop. by rewrite HP, IH.
Qed.

Lemma lower_noslash (c : ascii) :
  negb (eqc (Chars.to_ascii_lowercase c) "/") = true -> negb (eqc c "/") = true.
Proof. all_chars c. Qed.

Lemma lower_nodot (c : ascii) :
  negb (eqc (Chars.to_ascii_lowercase c) ".") = true -> negb (eqc c ".") = true.
Proof. all_chars c. Qed.

Lemma lower_e (c : ascii) :
  Chars.to_ascii_lowercase c = "e"%char ->
  c <> "p"%char /\ Some c ∉ [Some "g"%char; Some "o"%char; Some "m"%char].
Proof.
  intros H. split.
  - intros ->. discriminate H.
  - intros Hin. repeat (apply elem_of_cons in Hin as [[= ->] | Hin]; [discriminate H|]).
    by apply elem_of_nil in Hin.
Qed.

(** An extension that lower-cases to [appimage]: eight characters, none of
    them '/' or '.', the last one an 'e' or 'E'. *)
Lemma appimage_ext_chars (x : string) :
  Str.to_ascii_lowercase x = "appimage" ->
  list_ascii_of_string x <> []
  /\ forallb (fun c => negb (eqc c "/")) (list_ascii_of_string x) = true
  /\ forallb (fun c => negb (eqc c ".")) (list_ascii_of_string x) = true
  /\ exists c, last (list_ascii_of_string x) = Some c
               /\ Chars.to_ascii_lowercase c = "e"%char.
Proof.
  unfold Str.to_ascii_lowercase. intros H.
  apply (f_equal list_ascii_of_string) in H. rewrite list_string_roundtrip in H.
  split; [|split; [|split]].
  - intros Hx. rewrite Hx in H. discriminate H.
  - apply map_lower_forallb; [apply lower_noslash|]. by rewrite H.
  - apply map_lower_forallb; [apply lower_nodot|]. by rewrite H.
  - pose proof (last_map_ascii Chars.to_ascii_lowercase (list_ascii_of_string x)) as Hl.
    rewrite H in Hl.
    destruct (last (list_ascii_of_string x)) as [c|]; [|discriminate Hl].
    exists c. split; [reflexivity|]. by injection Hl.
Qed.

Lemma is_dot_long (l : list ascii) : (2 <= length l)%nat -> Path.is_dot l = false.
Proof.
  destruct l as [|x [|y l]]; simpl; intros H; [lia|lia|].
  destruct x as [[] [] [] [] [] [] [] []]; reflexivity.
Qed.

Lemma is_dotdot_long (l : list ascii) : (3 <= length l)%nat -> Path.is_dotdot l = false.
Proof.
  destruct l as [|x [|y [|z l]]]; simpl; intros H; try lia.
  destruct x as [[] [] [] [] [] [] [] []]; try reflexivity.
  destruct y as [[] [] [] [] [] [] [] []]; reflexivity.
Qed.

Lemma entry_name_dotted (li lx : list ascii) :
  li <> [] -> lx <> [] ->
  forallb (fun c => negb (eqc c "/")) li = true ->
  forallb (fun c => negb (eqc c "/")) lx = true ->
  is_entry_name (li ++ "."%char :: lx) = true.
Proof.
  intros Hi Hx Hsi Hsx.
  destruct li as [|a li]; [contradiction|]. destruct lx as [|c lx]; [contradiction|].
  assert (Hlen : (3 <= length ((a :: li) ++ "."%char :: c :: lx))%nat).
  { rewrite length_app. simpl. lia. }
  unfold is_entry_name. rewrite forallb_app, Hsi.
  rewrite is_dot_long, is_dotdot_long by lia.
  rewrite bool_decide_eq_false_2 by discriminate.
  change (forallb ?P ("."%char :: ?l)) with (P "."%char && forallb P l).
  rewrite Hsx. reflexivity.
Qed.

(** The bundle [s/i.x] is neither an icon nor the menu entry of [i]. *)
Lemma other_bundle_distinct (s apps i x : string) :
  Str.to_ascii_lowercase x = "appimage" ->
  (Path.join s (i +:+ "." +:+ x) ∉ icon_paths s i)
  /\ Path.join apps (desktop_name i) <> Path.join s (i +:+ "." +:+ x).
Proof.
  intros Hx. destruct (appimage_ext_chars x Hx) as [Hne [_ [_ [c [Hl Hc]]]]].
  assert (Hx' : x <> "") by (intros ->; contradiction).
  destruct (lower_e c Hc) as [Hp Hgom].
  split.
  - intros Hin. apply icon_path_last in Hin.
    rewrite last_artifact, Hl in Hin by exact Hx'. contradiction.
  - intros Heq. pose proof (last_desktop apps i) as Hd.
    rewrite Heq, last_artifact, Hl in Hd by exact Hx'. injection Hd. exact Hp.
Qed.

(** C10 (as stated, refuted): outside the sandbox, with a menu entry
    [axec-y.desktop] present and only [y.APPIMAGE] in storage,
    [list_apps] lists the bundle under the id [y], yet [remove_app "y"]
    succeeds (and leaves [y.APPIMAGE] in place). *)
Lemma remove_app_other_casing_succeeds :
  list_apps demo_env demo_store_world
  = (Ok [mkEntry "y" "y" "/home/u/.local/share/axec/appimages/y.APPIMAGE" None
           "/home/u/.local/share/applications/axec-y.desktop";
         mkEntry "x" "x" "/home/u/.local/share/axec/appimages/x.AppImage" None
           "/home/u/.local/share/applications/axec-x.desktop"], demo_store_world)
  /\ fst (remove_app demo_env "y" demo_store_world) = Ok tt
  /\ exists_b "/home/u/.local/share/axec/appimages/y.APPIMAGE"
       (snd (remove_app demo_env "y" demo_store_world)) = true.
Proof. split; [|split]; vm_compute; reflexivity. Qed.

(** Other casings, in a world where the storage and menu directories
    exist: let the storage hold a file [{id}.x] whose extension [x]
    lower-cases to [appimage], while neither [{id}.AppImage] nor
    [{id}.appimage] exists (and [id] is non-empty without '/').  Then [list_apps] returns an entry
    whose path is that file; [launch_app id] fails with
    "AppImage not found" and starts nothing; [remove_app id] never deletes
    the file, and it fails with "App not found" unless it runs outside the
    sandbox and the menu entry [axec-{id}.desktop] exists, in which case it
    succeeds. *)
Lemma other_casing_outcome_at (e : env) (i x dd apps : string) (nd : node) (w : world) :
  env_data_dir e = Some dd -> apps_of e dd = Ok apps ->
  is_dir (storage_of dd) w = true -> is_dir apps w = true ->
  i <> "" -> forallb (fun c => negb (eqc c "/")) (list_ascii_of_string i) = true ->
  Str.to_ascii_lowercase x = "appimage" ->
  w_fs w !! Path.join (storage_of dd) (i +:+ "." +:+ x) = Some nd ->
  exists_b (Path.join (storage_of dd) (i +:+ ".AppImage")) w = false ->
  exists_b (Path.join (storage_of dd) (i +:+ ".appimage")) w = false ->
  (exists r en, list_apps e w = (Ok r, w) /\ en ∈ r
                /\ path en = Path.join (storage_of dd) (i +:+ "." +:+ x))
  /\ launch_app e i w = (Err "AppImage not found", w)
  /\ (exists w', remove_app e i w
                 = (if negb (in_flatpak_sandbox e)
                       && exists_b (Path.join apps (desktop_name i)) w
                    then Ok tt else Err "App not found", w')
       /\ w_fs w' !! Path.join (storage_of dd) (i +:+ "." +:+ x) = Some nd).
Proof.
  intros Hdd Happs Hs Ha Hi Hsi Hx Hf H1 H2.
  set (s := storage_of dd). set (f := Path.join s (i +:+ "." +:+ x)).
  destruct (appimage_ext_chars x Hx) as [Hne [Hsx [Hdx _]]].
  destruct (other_bundle_distinct s apps i x Hx) as [Hfi Hdf].
  assert (Hnm : list_ascii_of_string (i +:+ "." +:+ x)
                = list_ascii_of_string i ++ "."%char :: list_ascii_of_string x).
  { by rewrite !list_ascii_of_string_append. }
  assert (Hli : list_ascii_of_string i <> []).
  { intros H. apply Hi. destruct i; [reflexivity|discriminate H]. }
  assert (Hen : is_entry_name (list_ascii_of_string (i +:+ "." +:+ x)) = true).
  { rewrite Hnm. by apply entry_name_dotted. }
  split; [|split].
  - destruct (push_parts s (i +:+ "." +:+ x) _ _ Hnm Hli Hdx Hen) as [Hext _].
    rewrite string_of_list_ascii_of_string in Hext.
    assert (Hle : exists en, list_entry s apps f w = [en] /\ path en = f).
    { unfold list_entry. fold f in Hext. rewrite Hext.
      rewrite bool_decide_eq_true_2 by exact Hx. eexists; split; reflexivity. }
    destruct Hle as [en [Hle Hp]].
    destruct (read_dir_has s (i +:+ "." +:+ x) w nd Hs Hf Hen) as [names [Hrd Hin]].
    unfold list_apps, mbind, map_err at 1.
    rewrite (ensure_dirs_existing e dd apps w Hdd Happs Hs Ha). cbv beta iota.
    fold s. rewrite Hrd. eexists _, en. split; [reflexivity|]. split; [|exact Hp].
    apply list_elem_of_In, in_concat. exists [en]. split; [|by left].
    apply in_map_iff. exists (i +:+ "." +:+ x). split; [exact Hle|].
    by apply list_elem_of_In.
  - unfold launch_app, mbind, map_err at 1.
    rewrite (ensure_dirs_existing e dd apps w Hdd Happs Hs Ha). cbv beta iota.
    simpl list_find.
    rewrite decide_False by (intros Hy; exact (eq_true_false_abs _ Hy H1)).
    rewrite decide_False by (intros Hy; exact (eq_true_false_abs _ Hy H2)).
    reflexivity.
  - unfold remove_app, mbind, map_err at 1.
    rewrite (ensure_dirs_existing e dd apps w Hdd Happs Hs Ha). cbv beta iota.
    rewrite remove_bundles_none by (repeat constructor; assumption).
    cbv beta iota zeta.
    assert (Hd : exists_b (Path.join apps (desktop_name i)) (remove_icon_files s i w)
                 = exists_b (Path.join apps (desktop_name i)) w).
    { unfold exists_b. by rewrite remove_icons_other by apply desktop_not_icon. }
    fold s. rewrite Hd.
    destruct (in_flatpak_sandbox e), (exists_b (Path.join apps (desktop_name i)) w);
      cbn [negb andb]; eexists; (split; [reflexivity|]);
      unfold remove_file_ignored;
      rewrite ?remove_file_other by exact Hdf; by rewrite remove_icons_other.
Qed.

(* ------------------------------------------------------------------ *)
(** ** C1: adding, then listing *)

(** The characters of an identifier survive every step of the two
    derivations unchanged. *)
Lemma id_char_props (c : ascii) :
  is_id_char c = true ->
  negb (eqc c "/") = true /\ negb (eqc c ".") = true /\ is_whitespace c = false
  /\ is_kept_name_char c = true /\ sanitize_char c = c /\ Chars.to_lowercase c = c.
Proof.
  destruct c as [[] [] [] [] [] [] [] []]; vm_compute; intros H;
    first [discriminate H | repeat split].
Qed.

Lemma map_fixed (f : ascii -> ascii) (l : list ascii) :
  Forall (fun c => f c = c) l -> map f l = l.
Proof. induction 1; simpl; congruence. Qed.

Lemma drop_while_keep (p : ascii -> bool) (l : list ascii) :
  (forall c t, l = c :: t -> p c = false) -> Str.drop_while p l = l.
Proof.
  destruct l as [|c t]; simpl; [reflexivity|].
  intros H. by rewrite (H c t eq_refl).
Qed.

Lemma trim_matches_l_keep (p : ascii -> bool) (l : list ascii) :
  (forall c t, l = c :: t -> p c = false) ->
  (forall c, last l = Some c -> p c = false) ->
  Str.trim_matches_l p l = l.
Proof.
  intros Hh Hl. unfold Str.trim_matches_l.
  rewrite (drop_while_keep p l Hh).
  rewrite drop_while_keep; [apply rev_involutive|].
  intros c t Ht. apply Hl. rewrite <- (rev_involutive l), Ht. simpl. apply last_snoc.
Qed.

Lemma split_ws_go_word (cur l : list ascii) :
  Forall (fun c => is_whitespace c = false) l -> cur <> [] \/ l <> [] ->
  Str.split_ws_go cur l = [rev cur ++ l].
Proof.
  revert cur. induction l as [|c l IH]; intros cur Hf Hne; simpl.
  - destruct cur as [|d cur]; [destruct Hne; contradiction|].
    by rewrite app_nil_r.
  - inversion Hf as [|? ? Hc Hl]; subst. rewrite Hc.
    rewrite IH by (exact Hl || (left; discriminate)). simpl.
    by rewrite <- app_assoc.
Qed.

Lemma forall_forallb (P : ascii -> bool) (l : list ascii) :
  Forall (fun c => P c = true) l -> forallb P l = true.
Proof. induction 1; simpl; [reflexivity|]. by apply andb_true_intro. Qed.

(** [parse_appimage_name] of the stored bundle [{id}.AppImage] is [id]. *)
Lemma parse_stored_name (s i : string) :
  i <> "" -> Forall (fun c => is_id_char c = true) (list_ascii_of_string i) ->
  parse_appimage_name (Path.join s (i +:+ ".AppImage")) = i.
Proof.
  intros Hi Hf.
  pose proof (List.Forall_impl _ (fun c H => proj1 (id_char_props c H)) Hf) as Hsl.
  pose proof (List.Forall_impl _ (fun c H => proj1 (proj2 (id_char_props c H))) Hf) as Hdt.
  pose proof (List.Forall_impl _ (fun c H => proj1 (proj2 (proj2 (id_char_props c H)))) Hf)
    as Hws.
  pose proof (List.Forall_impl _
    (fun c H => proj1 (proj2 (proj2 (proj2 (id_char_props c H))))) Hf) as Hkp.
  assert (Hli : list_ascii_of_string i <> []).
  { intros H. apply Hi. destruct i; [reflexivity|discriminate H]. }
  assert (Hnm : list_ascii_of_string (i +:+ ".AppImage")
                = list_ascii_of_string i ++ "."%char :: list_ascii_of_string "AppImage").
  { by rewrite list_ascii_of_string_append. }
  assert (Hen : is_entry_name (list_ascii_of_string (i +:+ ".AppImage")) = true).
  { rewrite Hnm. apply entry_name_dotted; [exact Hli|discriminate| |reflexivity].
    by apply forall_forallb. }
  destruct (push_parts s _ _ _ Hnm Hli eq_refl Hen) as [_ Hstem].
  unfold parse_appimage_name. rewrite Hstem. cbv zeta.
  rewrite list_string_roundtrip.
  rewrite (map_fixed _ (list_ascii_of_string i)).
  2:{ eapply List.Forall_impl; [|exact Hkp]. intros c Hc. simpl. by rewrite Hc. }
  unfold Str.split_whitespace. rewrite list_string_roundtrip.
  rewrite split_ws_go_word by (exact Hws || (right; exact Hli)).
  cbn [map rev app Str.join].
  unfold Str.trim, Str.trim_matches. rewrite !list_string_roundtrip.
  rewrite trim_matches_l_keep.
  - apply string_of_list_ascii_of_string.
  - intros c t Ht. rewrite Ht in Hws. by inversion Hws.
  - intros c Hc. apply last_Some in Hc as [l' Hl']. rewrite Hl' in Hws.
    apply Forall_app in Hws as [_ Hws]. by inversion Hws.
Qed.

(** [sanitize_filename] leaves an identifier unchanged. *)
Lemma sanitize_id (i : string) :
  Forall (fun c => is_id_char c = true) (list_ascii_of_string i) ->
  head (list_ascii_of_string i) <> Some "-"%char ->
  last (list_ascii_of_string i) <> Some "-"%char ->
  sanitize_filename i = i.
Proof.
  intros Hf Hh Hl.
  rewrite <- (string_of_list_ascii_of_string (sanitize_filename i)), sanitize_filename_chars.
  rewrite (map_fixed sanitize_char).
  2:{ exact (List.Forall_impl _
        (fun c H => proj1 (proj2 (proj2 (proj2 (proj2 (id_char_props c H)))))) Hf). }
  rewrite trim_matches_l_keep.
  - rewrite map_fixed; [apply string_of_list_ascii_of_string|].
    exact (List.Forall_impl _
      (fun c H => proj2 (proj2 (proj2 (proj2 (proj2 (id_char_props c H)))))) Hf).
  - intros c t Ht. rewrite Ht in Hh. simpl in Hh.
    destruct (eqc c "-") eqn:E; [|reflexivity].
    apply eqc_true in E. subst c. contradiction.
  - intros c Hc. destruct (eqc c "-") eqn:E; [|reflexivity].
    apply eqc_true in E. subst c. contradiction.
Qed.

(** How the world evolves during [add_appimage]: no path disappears and
    a directory stays a directory. *)
Definition grows (w w' : world) : Prop :=
  forall p n, w_fs w !! p = Some n ->
  exists n', w_fs w' !! p = Some n' /\ (n = NDir -> n' = NDir).

Lemma grows_refl (w : world) : grows w w.
Proof. intros p n H. by exists n. Qed.

Lemma grows_trans (w1 w2 w3 : world) : grows w1 w2 -> grows w2 w3 -> grows w1 w3.
Proof.
  intros H12 H23 p n H. destruct (H12 p n H) as [n2 [H2 Hd2]].
  destruct (H23 p n2 H2) as [n3 [H3 Hd3]]. exists n3. auto.
Qed.

Lemma grows_insert (w : world) (p : string) (n' : node) :
  (forall n, w_fs w !! p = Some n -> n = NDir -> n' = NDir) ->
  grows w (set_fs w (<[p := n']> (w_fs w))).
Proof.
  intros H q n Hq. simpl. destruct (decide (p = q)) as [->|Hpq].
  - exists n'. rewrite lookup_insert_eq. split; [reflexivity|]. exact (H n Hq).
  - exists n. rewrite lookup_insert_ne by exact Hpq. auto.
Qed.

Lemma grows_is_dir (w w' : world) (p : string) :
  grows w w' -> is_dir p w = true -> is_dir p w' = true.
Proof.
  unfold is_dir. intros H Hd. destruct (w_fs w !! p) as [[|]|] eqn:E; try discriminate.
  destruct (H p NDir E) as [n' [-> Hn]]. by rewrite Hn.
Qed.

Lemma grows_lookup (w w' : world) (p : string) :
  grows w w' -> is_Some (w_fs w !! p) -> is_Some (w_fs w' !! p).
Proof.
  intros H [n Hn]. destruct (H p n Hn) as [n' [Hn' _]]. by exists n'.
Qed.

Lemma grows_create_one (b : bool) (q : string) (w : world) :
  grows w (snd (create_one b q w)).
Proof.
  unfold create_one. destruct (w_fs w !! q) as [[|]|] eqn:E; try apply grows_refl.
  case_bool_decide; [apply grows_refl|]. apply grows_insert. intros n Hn. congruence.
Qed.

Lemma grows_create_all (qs : list string) (w : world) : grows w (snd (create_all qs w)).
Proof.
  revert w. induction qs as [|q qs IH]; intros w; simpl; [apply grows_refl|].
  set (b := match qs with [] => true | _ => false end).
  unfold mbind. pose proof (grows_create_one b q w) as H1.
  destruct (create_one b q w) as [[]w1]; simpl in H1; [|exact H1].
  exact (grows_trans _ _ _ H1 (IH w1)).
Qed.

Lemma grows_create_dir_all (p : string) (w : world) : grows w (snd (create_dir_all p w)).
Proof.
  unfold create_dir_all. destruct (_ || _); [apply grows_refl|apply grows_create_all].
Qed.

Lemma grows_fs_copy (src dst : string) (w : world) : grows w (snd (fs_copy src dst w)).
Proof.
  unfold fs_copy. destruct (w_fs w !! src) as [[c m|]|]; try apply grows_refl.
  destruct (w_fs w !! dst) as [[|]|] eqn:E; try apply grows_refl;
    case_bool_decide; try apply grows_refl; apply grows_insert; intros n Hn; congruence.
Qed.

Lemma grows_make_executable (p : string) (w : world) :
  grows w (snd (make_executable p w)).
Proof.
  unfold make_executable. destruct (w_fs w !! p) as [n|] eqn:E; [|apply grows_refl].
  case_bool_decide; [apply grows_refl|]. apply grows_insert.
  intros n0 Hn0 ->. rewrite E in Hn0. injection Hn0 as ->. reflexivity.
Qed.

Lemma grows_extract_icon (e : env) (a t b : string) (w : world) :
  grows w (snd (extract_icon e a t b w)).
Proof.
  unfold extract_icon. destruct (negb _); [apply grows_refl|].
  destruct (can_exec e a w) as [c|]; [|apply grows_refl].
  destruct (env_extract e c) as [succ tree]. destruct (negb succ); [apply grows_refl|].
  destruct (list_find _ _) as [[k src]|]; [|apply grows_refl]. cbv zeta.
  destruct (tree_lookup tree src) as [[c' m|]|]; try apply grows_refl.
  destruct (w_fs w !! _) as [[|]|] eqn:E; try apply grows_refl;
    case_bool_decide; try apply grows_refl; apply grows_insert; intros n Hn; congruence.
Qed.

Lemma grows_write_desktop_file (nm ex : string) (ic : option string) (d : string)
  (w : world) : grows w (snd (write_desktop_file nm ex ic d w)).
Proof.
  unfold write_desktop_file. cbv zeta.
  destruct (w_fs w !! d) as [[|]|] eqn:E; try apply grows_refl;
    case_bool_decide; try apply grows_refl; apply grows_insert; intros n Hn; congruence.
Qed.

Lemma create_one_ok (b : bool) (q : string) (w w' : world) :
  create_one b q w = (Ok tt, w') -> is_dir q w' = true.
Proof.
  unfold create_one, is_dir. destruct (w_fs w !! q) as [[|]|] eqn:E.
  - discriminate.
  - intros [= <-]. by rewrite E.
  - case_bool_decide; [discriminate|]. intros [= <-]. simpl. by rewrite lookup_insert_eq.
Qed.

Lemma create_all_ok (qs : list string) (w w' : world) (q : string) :
  create_all qs w = (Ok tt, w') -> In q qs -> is_dir q w' = true.
Proof.
  revert w. induction qs as [|q0 qs IH]; intros w; simpl; [intros _ []|].
  set (b := match qs with [] => true | _ => false end).
  unfold mbind. pose proof (grows_create_one b q0 w) as Hg.
  destruct (create_one b q0 w) as [[[]|] w1] eqn:E; [|discriminate].
  simpl in Hg. intros H [-> | Hq]; [|exact (IH w1 H Hq)].
  apply (grows_is_dir w1); [|exact (create_one_ok _ _ _ _ E)].
  pose proof (grows_create_all qs w1) as Hg1. by rewrite H in Hg1.
Qed.

Lemma create_dir_all_ok (p : string) (w w' : world) :
  p <> "" -> create_dir_all p w = (Ok tt, w') -> is_dir p w' = true.
Proof.
  intros Hp. unfold create_dir_all.
  destruct (bool_decide (p = "") || is_dir p w) eqn:E.
  - intros [= <-]. apply orb_true_iff in E as [E|E]; [|exact E].
    apply bool_decide_eq_true in E. contradiction.
  - intros H. apply (create_all_ok _ _ _ p H). unfold dir_chain.
    apply in_or_app. right. by left.
Qed.

Lemma join_nonempty (d n : string) : n <> "" -> Path.join d n <> "".
Proof.
  intros Hn. unfold Path.join. destruct (Path.starts_with_slash n); [exact Hn|].
  by apply string_app_neq_nil_r.
Qed.

Lemma apps_of_nonempty (e : env) (dd a : string) : apps_of e dd = Ok a -> a <> "".
Proof.
  unfold apps_of. destruct (in_flatpak_sandbox e).
  - intros [= <-]. apply join_nonempty. discriminate.
  - destruct (env_home_dir e); [|discriminate]. intros [= <-].
    apply join_nonempty. discriminate.
Qed.

Lemma ensure_dirs_ok (e : env) (w w' : world) (s a : string) :
  ensure_dirs e w = (Ok (s, a), w') ->
  exists dd, env_data_dir e = Some dd /\ apps_of e dd = Ok a /\ s = storage_of dd
             /\ is_dir s w' = true /\ is_dir a w' = true.
Proof.
  unfold ensure_dirs. destruct (env_data_dir e) as [dd|]; [|discriminate].
  destruct (apps_of e dd) as [a'|err] eqn:Ea; [|discriminate].
  unfold mbind.
  destruct (create_dir_all (storage_of dd) w) as [[[]|] w2] eqn:E1; [|discriminate].
  destruct (create_dir_all a' w2) as [[[]|] w3] eqn:E2; [|discriminate].
  unfold mret. intros [= <- <- <-]. exists dd.
  split; [reflexivity|]. split; [exact Ea|]. split; [reflexivity|].
  split.
  - apply (grows_is_dir w2).
    + pose proof (grows_create_dir_all a' w2) as Hg. by rewrite E2 in Hg.
    + apply (create_dir_all_ok _ w); [apply join_nonempty; discriminate|exact E1].
  - apply (create_dir_all_ok _ w2); [by eapply apps_of_nonempty|exact E2].
Qed.

Lemma fs_copy_ok (src dst : string) (w w' : world) :
  fs_copy src dst w = (Ok tt, w') -> is_Some (w_fs w' !! dst).
Proof.
  unfold fs_copy. destruct (w_fs w !! src) as [[c m|]|]; try discriminate.
  destruct (w_fs w !! dst) as [[|]|]; try discriminate;
    case_bool_decide; try discriminate; intros [= <-]; simpl;
    rewrite lookup_insert_eq; by eexists.
Qed.

(** What a successful [add_appimage] has done. *)
Lemma add_appimage_ok (e : env) (src : string) (w w1 : world) (en : AppImageEntry) :
  add_appimage e src w = (Ok en, w1) ->
  exists dd apps, env_data_dir e = Some dd /\ apps_of e dd = Ok apps
    /\ id en = sanitize_filename (parse_appimage_name src)
    /\ path en = Path.join (storage_of dd) (id en +:+ ".AppImage")
    /\ is_dir (storage_of dd) w1 = true /\ is_dir apps w1 = true
    /\ is_Some (w_fs w1 !! path en).
Proof.
  unfold add_appimage. destruct (negb (exists_b src w)); [discriminate|].
  unfold mbind at 1, map_err at 1.
  destruct (ensure_dirs e w) as [[[s a]|err] w2] eqn:Ed; [|discriminate].
  apply ensure_dirs_ok in Ed as (dd & Hdd & Ha & -> & Hs & Hap).
  set (i := sanitize_filename (parse_appimage_name src)).
  set (dest := Path.join (storage_of dd) (i +:+ ".AppImage")).
  unfold mbind, map_err.
  pose proof (grows_fs_copy src dest w2) as G3.
  destruct (fs_copy src dest w2) as [[[]|] w3] eqn:Ec; [|discriminate].
  pose proof (grows_make_executable dest w3) as G4.
  destruct (make_executable dest w3) as [[[]|] w4] eqn:Em; [|discriminate].
  pose proof (grows_extract_icon e dest (storage_of dd) i w4) as G5.
  destruct (extract_icon e dest (storage_of dd) i w4) as [icon w5] eqn:Ex.
  simpl in G3, G4, G5.
  assert (Hfin : forall w6, grows w5 w6 ->
    exists dd' apps', env_data_dir e = Some dd' /\ apps_of e dd' = Ok apps'
      /\ i = i /\ dest = Path.join (storage_of dd') (i +:+ ".AppImage")
      /\ is_dir (storage_of dd') w6 = true /\ is_dir apps' w6 = true
      /\ is_Some (w_fs w6 !! dest)).
  { intros w6 G6. exists dd, a.
    pose proof (grows_trans _ _ _ G3 (grows_trans _ _ _ G4 (grows_trans _ _ _ G5 G6))) as G.
    pose proof (grows_trans _ _ _ G4 (grows_trans _ _ _ G5 G6)) as G'.
    repeat split; try assumption.
    - exact (grows_is_dir _ _ _ G Hs).
    - exact (grows_is_dir _ _ _ G Hap).
    - exact (grows_lookup _ _ _ G' (fs_copy_ok _ _ _ _ Ec)). }
  destruct (negb (in_flatpak_sandbox e)).
  - pose proof (grows_write_desktop_file (parse_appimage_name src) dest icon
                  (Path.join a (desktop_name i)) w5) as G6.
    destruct (write_desktop_file _ _ _ _ w5) as [[[]|] w6] eqn:Ew; [|discriminate].
    unfold mret. intros [= <- <-]. exact (Hfin w6 G6).
  - unfold mret. intros [= <- <-]. exact (Hfin w5 (grows_refl w5)).
Qed.

Lemma entry_of_Some (s k n : string) :
  entry_of s k = Some n ->
  k = Path.dir_prefix s +:+ n /\ is_entry_name (list_ascii_of_string n) = true.
Proof.
  unfold entry_of.
  destruct (strip_prefix _ _) as [l|] eqn:E; [|discriminate].
  destruct (is_entry_name l) eqn:Hl; [|discriminate]. intros [= <-].
  rewrite list_string_roundtrip. split; [|exact Hl].
  apply strip_prefix_Some in E.
  rewrite <- (string_of_list_ascii_of_string k), E.
  rewrite <- (list_string_roundtrip l) at 1.
  rewrite <- list_ascii_of_string_append. apply string_of_list_ascii_of_string.
Qed.

Lemma read_dir_entry_name (s n : string) (w : world) (names : list string) :
  read_dir s w = Some names -> n ∈ names -> is_entry_name (list_ascii_of_string n) = true.
Proof.
  unfold read_dir. destruct (w_fs w !! s) as [[|]|]; try discriminate.
  intros [= <-] Hn. apply list_elem_of_omap in Hn as [[k v] [_ Hk]].
  exact (proj2 (entry_of_Some _ _ _ Hk)).
Qed.

Lemma omap_entry_NoDup (s : string) (l : list (string * node)) :
  NoDup l.*1 -> NoDup (omap (fun kv => entry_of s kv.1) l).
Proof.
  induction l as [|[k v] l IH]; simpl; intros H; [constructor|].
  apply NoDup_cons in H as [Hk Hl].
  destruct (entry_of s k) as [n|] eqn:E; [|by apply IH].
  apply NoDup_cons. split; [|by apply IH].
  intros Hn. apply list_elem_of_omap in Hn as [[k' v'] [Hin E']]. simpl in E'.
  apply entry_of_Some in E as [-> _]. apply entry_of_Some in E' as [-> _].
  apply Hk. apply (list_elem_of_fmap_2 fst) in Hin. exact Hin.
Qed.

Lemma read_dir_NoDup (s : string) (w : world) (names : list string) :
  read_dir s w = Some names -> NoDup names.
Proof.
  unfold read_dir. destruct (w_fs w !! s) as [[|]|]; try discriminate.
  intros [= <-]. apply omap_entry_NoDup, NoDup_fst_map_to_list.
Qed.

Lemma filter_none {A} (P : A -> bool) (l : list A) :
  (forall x, In x l -> P x = false) -> List.filter P l = [].
Proof.
  induction l as [|x l IH]; simpl; intros H; [reflexivity|].
  rewrite H by (by left). apply IH. intros y Hy. apply H. by right.
Qed.

Lemma filter_concat_none {A B} (P : B -> bool) (g : A -> list B) (l : list A) :
  (forall a, In a l -> List.filter P (g a) = []) ->
  List.filter P (concat (map g l)) = [].
Proof.
  induction l as [|a l IH]; simpl; intros H; [reflexivity|].
  rewrite List.filter_app, H by (by left). apply IH. intros b Hb. apply H. by right.
Qed.

(** Exactly one element of the concatenation passes [P] when exactly one
    passes in the part of [a], none passes in the other parts, and [a]
    occurs once. *)
Lemma count_one {A B} (P : B -> bool) (g : A -> list B) (l : list A) (a : A) :
  NoDup l -> In a l -> length (List.filter P (g a)) = 1%nat ->
  (forall b, In b l -> b <> a -> List.filter P (g b) = []) ->
  length (List.filter P (concat (map g l))) = 1%nat.
Proof.
  intros Hnd Ha H1 H0. apply in_split in Ha as [l1 [l2 ->]].
  apply NoDup_app in Hnd as [_ [Hx Hr]]. apply NoDup_cons in Hr as [Ha2 _].
  rewrite map_app, concat_app, List.filter_app, length_app. cbn [map concat].
  rewrite List.filter_app, length_app.
  rewrite (filter_concat_none P g l1), (filter_concat_none P g l2).
  - simpl. rewrite H1. reflexivity.
  - intros b Hb. apply H0; [apply in_or_app; right; by right|].
    intros ->. apply Ha2. by apply list_elem_of_In.
  - intros b Hb. apply H0; [apply in_or_app; by left|].
    intros ->. apply (Hx a); [by apply list_elem_of_In|]. apply elem_of_cons. by left.
Qed.

Lemma list_entry_path (s a p : string) (w : world) (x : AppImageEntry) :
  In x (list_entry s a p w) -> path x = p.
Proof.
  unfold list_entry. destruct (Path.extension p); [|intros []].
  case_bool_decide; [|intros []]. intros [<- | []]. reflexivity.
Qed.

(** The entry [list_apps] builds for a stored [{id}.AppImage]. *)
Lemma list_entry_stored (s a i : string) (w : world) :
  i <> "" -> Forall (fun c => is_id_char c = true) (list_ascii_of_string i) ->
  head (list_ascii_of_string i) <> Some "-"%char ->
  last (list_ascii_of_string i) <> Some "-"%char ->
  exists x, list_entry s a (Path.join s (i +:+ ".AppImage")) w = [x]
            /\ id x = i /\ path x = Path.join s (i +:+ ".AppImage").
Proof.
  intros Hi Hf Hh Hl.
  pose proof (List.Forall_impl _ (fun c H => proj1 (id_char_props c H)) Hf) as Hsl.
  assert (Hli : list_ascii_of_string i <> []).
  { intros H. apply Hi. destruct i; [reflexivity|discriminate H]. }
  assert (Hnm : list_ascii_of_string (i +:+ ".AppImage")
                = list_ascii_of_string i ++ "."%char :: list_ascii_of_string "AppImage").
  { by rewrite list_ascii_of_string_append. }
  assert (Hen : is_entry_name (list_ascii_of_string (i +:+ ".AppImage")) = true).
  { rewrite Hnm. apply entry_name_dotted; [exact Hli|discriminate| |reflexivity].
    by apply forall_forallb. }
  destruct (push_parts s _ _ _ Hnm Hli eq_refl Hen) as [Hext _].
  unfold list_entry. rewrite Hext.
  rewrite bool_decide_eq_true_2 by reflexivity.
  eexists. split; [reflexivity|]. cbn [id path]. split; [|reflexivity].
  rewrite parse_stored_name by assumption. by apply sanitize_id.
Qed.

(** C1: when [add_appimage] succeeds on a source file and returns an entry
    with a non-empty id, that id is [sanitize_filename] of
    [parse_appimage_name] of the source; the bundle is stored at
    [{storage}/{id}.AppImage] and exists; and a following [list_apps],
    which derives every entry again from the stored file name (via
    [parse_appimage_name] then [sanitize_filename]), succeeds and returns
    exactly one entry whose id is that id and whose path is the stored
    bundle's path. *)
Theorem add_then_list_once (e : env) (src : string) (w w1 : world) (en : AppImageEntry) :
  add_appimage e src w = (Ok en, w1) -> id en <> "" ->
  id en = sanitize_filename (parse_appimage_name src)
  /\ (exists dd, env_data_dir e = Some dd
                 /\ path en = Path.join (storage_of dd) (id en +:+ ".AppImage"))
  /\ exists_b (path en) w1 = true
  /\ exists r, list_apps e w1 = (Ok r, w1)
       /\ length (List.filter (fun x => bool_decide (id x = id en /\ path x = path en)) r)
          = 1%nat.
Proof.
  intros Hadd Hne.
  destruct (add_appimage_ok e src w w1 en Hadd)
    as (dd & a & Hdd & Ha & Hid & Hp & Hs & Hap & Hex).
  destruct (sanitize_filename_shape (parse_appimage_name src)) as [Hf [Hh Hl]].
  rewrite <- Hid in Hf, Hh, Hl.
  split; [exact Hid|]. split; [by exists dd|].
  split; [by apply bool_decide_eq_true_2|].
  set (s := storage_of dd) in *. set (i := id en) in *.
  destruct Hex as [nd Hnd]. rewrite Hp in Hnd.
  assert (Hli : list_ascii_of_string i <> []).
  { intros H. apply Hne. destruct i; [reflexivity|discriminate H]. }
  assert (Hen : is_entry_name (list_ascii_of_string (i +:+ ".AppImage")) = true).
  { rewrite list_ascii_of_string_append.
    apply entry_name_dotted; [exact Hli|discriminate| |reflexivity].
    apply forall_forallb.
    exact (List.Forall_impl _ (fun c H => proj1 (id_char_props c H)) Hf). }
  destruct (read_dir_has s (i +:+ ".AppImage") w1 nd Hs Hnd Hen) as [names [Hrd Hin]].
  unfold list_apps, mbind, map_err at 1.
  rewrite (ensure_dirs_existing e dd a w1 Hdd Ha Hs Hap). cbv beta iota.
  fold s. rewrite Hrd. eexists. split; [reflexivity|].
  apply (count_one _ _ names (i +:+ ".AppImage")).
  - exact (read_dir_NoDup s w1 names Hrd).
  - by apply list_elem_of_In.
  - destruct (list_entry_stored s a i w1 Hne Hf Hh Hl) as [x [Hx [Hxi Hxp]]].
    rewrite Hx. simpl. rewrite bool_decide_eq_true_2; [reflexivity|].
    split; [exact Hxi|]. by rewrite Hxp, Hp.
  - intros b Hb Hba. apply filter_none. intros x Hx.
    apply list_entry_path in Hx. apply bool_decide_eq_false_2. intros [_ Hxp].
    rewrite Hx, Hp in Hxp. apply Hba.
    assert (Hbn : is_entry_name (list_ascii_of_string b) = true).
    { apply (read_dir_entry_name s b w1 names Hrd). by apply list_elem_of_In. }
    rewrite !join_relative in Hxp
      by (apply entry_name_no_leading_slash; assumption).
    exact (inj (String.append (Path.dir_prefix s)) _ _ Hxp).
Qed.

Lemma add_then_list_once_witness :
  add_appimage demo_env "/tmp/MyApp-1.2.3_x86_64.AppImage" demo_world
  = (Ok (mkEntry "myapp-1-2-3_x86_64" "MyApp-1 2 3_x86_64"
           "/home/u/.local/share/axec/appimages/myapp-1-2-3_x86_64.AppImage"
           (Some "/home/u/.local/share/axec/appimages/myapp-1-2-3_x86_64.png")
           "/home/u/.local/share/applications/axec-myapp-1-2-3_x86_64.desktop"),
     snd (add_appimage demo_env "/tmp/MyApp-1.2.3_x86_64.AppImage" demo_world))
  /\ exists r, list_apps demo_env
                 (snd (add_appimage demo_env "/tmp/MyApp-1.2.3_x86_64.AppImage" demo_world))
               = (Ok r, snd (add_appimage demo_env "/tmp/MyApp-1.2.3_x86_64.AppImage"
                               demo_world))
       /\ length (List.filter (fun x => bool_decide (id x = "myapp-1-2-3_x86_64"
             /\ path x = "/home/u/.local/share/axec/appimages/myapp-1-2-3_x86_64.AppImage"))
             r) = 1%nat.
Proof.
  assert (H : add_appimage demo_env "/tmp/MyApp-1.2.3_x86_64.AppImage" demo_world
    = (Ok (mkEntry "myapp-1-2-3_x86_64" "MyApp-1 2 3_x86_64"
           "/home/u/.local/share/axec/appimages/myapp-1-2-3_x86_64.AppImage"
           (Some "/home/u/.local/share/axec/appimages/myapp-1-2-3_x86_64.png")
           "/home/u/.local/share/applications/axec-myapp-1-2-3_x86_64.desktop"),
       snd (add_appimage demo_env "/tmp/MyApp-1.2.3_x86_64.AppImage" demo_world)))
    by (vm_compute; reflexivity).
  split; [exact H|].
  exact (proj2 (proj2 (proj2 (add_then_list_once _ _ _ _ _ H ltac:(discriminate))))).
Defined.

(* ================================================================== *)
(** * Further properties of lib.rs *)

(* ------------------------------------------------------------------ *)
(** ** The identity derivers *)

(** [sanitize_filename] is idempotent. *)
Lemma sanitize_filename_idempotent (s : string) :
  sanitize_filename (sanitize_filename s) = sanitize_filename s.
Proof.
  destruct (sanitize_filename_shape s) as [Hf [Hh Hl]]. by apply sanitize_id.
Qed.

(** The stored file name [{id}.AppImage] of any non-empty identifier that
    [sanitize_filename] produces gives that identifier back. *)
Lemma stored_name_roundtrip (s t : string) :
  sanitize_filename t <> "" ->
  sanitize_filename (parse_appimage_name
    (Path.join s (sanitize_filename t +:+ ".AppImage"))) = sanitize_filename t.
Proof.
  intros Hne. destruct (sanitize_filename_shape t) as [Hf [Hh Hl]].
  rewrite parse_stored_name by assumption. by apply sanitize_id.
Qed.

Lemma stored_name_roundtrip_witness :
  sanitize_filename "My App (64 bit)" <> ""
  /\ sanitize_filename (parse_appimage_name
       (Path.join "/s" (sanitize_filename "My App (64 bit)" +:+ ".AppImage")))
     = sanitize_filename "My App (64 bit)".
Proof.
  split; [vm_compute; discriminate|].
  apply stored_name_roundtrip. vm_compute. discriminate.
Defined.

Lemma split_ws_go_incl (cur l : list ascii) (w : list ascii) (c : ascii) :
  In w (Str.split_ws_go cur l) -> In c w -> In c cur \/ In c l.
Proof.
  revert cur. induction l as [|d l IH]; intros cur; simpl.
  - destruct cur as [|x cur]; [intros []|].
    intros [<- | []] Hc. left. by apply in_rev.
  - destruct (is_whitespace d).
    + destruct cur as [|x cur].
      * intros Hw Hc. destruct (IH [] Hw Hc) as [[]|H]. by right; right.
      * intros [<- | Hw] Hc; [left; by apply in_rev|].
        destruct (IH [] Hw Hc) as [[]|H]. by right; right.
    + intros Hw Hc. destruct (IH (d :: cur) Hw Hc) as [[<- | H] | H].
      * by right; left.
      * by left.
      * by right; right.
Qed.

Lemma join_incl (sep : string) (ws : list string) (c : ascii) :
  In c (list_ascii_of_string (Str.join sep ws)) ->
  In c (list_ascii_of_string sep) \/ exists w, In w ws /\ In c (list_ascii_of_string w).
Proof.
  induction ws as [|w ws IH]; simpl; [intros []|].
  destruct ws as [|w' ws'].
  - intros Hc. right. exists w. split; [by left|exact Hc].
  - rewrite !list_ascii_of_string_append. intros Hc.
    apply in_app_or in Hc as [Hc|Hc]; [right; exists w; split; [by left|exact Hc]|].
    apply in_app_or in Hc as [Hc|Hc]; [by left|].
    destruct (IH Hc) as [H|[w0 [Hw0 H]]]; [by left|].
    right. exists w0. split; [by right|exact H].
Qed.

Lemma kept_or_space (c : ascii) :
  is_kept_name_char (if is_kept_name_char c then c else " "%char) = true.
Proof. destruct (is_kept_name_char c) eqn:E; [exact E|reflexivity]. Qed.

Lemma not_ws_not_space (c : ascii) : is_whitespace c = false -> c <> " "%char.
Proof. intros H ->. discriminate H. Qed.

(** The display name [parse_appimage_name] returns holds only ASCII
    letters and digits, spaces, '-' and '_', and neither starts nor ends
    with a space. *)
Lemma parse_appimage_name_chars (p : string) :
  Forall (fun c => is_kept_name_char c = true) (list_ascii_of_string (parse_appimage_name p))
  /\ head (list_ascii_of_string (parse_appimage_name p)) <> Some " "%char
  /\ last (list_ascii_of_string (parse_appimage_name p)) <> Some " "%char.
Proof.
  unfold parse_appimage_name, Str.trim, Str.trim_matches. cbv zeta.
  rewrite list_string_roundtrip.
  set (fname := match Path.file_stem p with Some s => s | None => "appimage" end).
  set (base := map _ (list_ascii_of_string fname)).
  set (joined := Str.join " " _).
  set (t := Str.trim_matches_l is_whitespace (list_ascii_of_string joined)).
  split; [|split].
  - apply List.Forall_forall. intros c Hc.
    apply trim_matches_l_incl in Hc. apply join_incl in Hc as [Hc|[w [Hw Hc]]].
    + destruct Hc as [<- | []]. reflexivity.
    + unfold Str.split_whitespace in Hw. rewrite list_string_roundtrip in Hw.
      apply in_map_iff in Hw as [wl [<- Hwl]]. rewrite list_string_roundtrip in Hc.
      destruct (split_ws_go_incl _ _ _ _ Hwl Hc) as [[]|Hb].
      apply in_map_iff in Hb as [c0 [<- _]]. apply kept_or_space.
  - intros Hh. apply trim_matches_l_head in Hh. discriminate Hh.
  - intros Hl. apply trim_matches_l_last in Hl. discriminate Hl.
Qed.

(* ------------------------------------------------------------------ *)
(** ** Icon extraction *)

Definition icon_ext_of (p : string) : string :=
  match Path.extension p with
  | Some s => Str.to_ascii_lowercase s
  | None => "png"
  end.

(** Every candidate of [extract_icon] gives an extension among the four
    icon formats. *)
Lemma icon_candidate_ext (tree : list (string * node)) (p : string) :
  In p (icon_candidates tree) -> In (icon_ext_of p) ["png"; "svg"; "xpm"; "ico"].
Proof.
  unfold icon_candidates. intros [<- | Hp]; [by left|].
  apply in_concat in Hp as [l [Hl Hp]]. apply in_map_iff in Hl as [sub [<- _]].
  destruct (tree_is_dir _ _); [|destruct Hp].
  apply filter_In in Hp as [_ Hp]. unfold icon_ext_of.
  destruct (Path.extension p) as [ext|]; [|discriminate].
  unfold is_icon_ext in Hp. apply bool_decide_eq_true in Hp.
  by apply list_elem_of_In.
Qed.

Lemma icon_ext_last (ext : string) :
  In ext ["png"; "svg"; "xpm"; "ico"] ->
  ext <> "" /\ last (list_ascii_of_string ext) ∈ [Some "g"%char; Some "o"%char; Some "m"%char].
Proof.
  intros H. repeat (destruct H as [<- | H]; [split; [discriminate|vm_compute; set_solver]|]).
  destruct H.
Qed.

(** What [extract_icon] does: either it returns [None] and leaves the
    world unchanged, or it returns [Some] of [target_dir/{base_id}.{ext}]
    for an extension among png, svg, xpm and ico, after writing a regular
    file there and changing nothing else. *)
Lemma extract_icon_shape (e : env) (a t b : string) (w : world) :
  extract_icon e a t b w = (None, w)
  \/ exists ext c m,
       In ext ["png"; "svg"; "xpm"; "ico"]
       /\ extract_icon e a t b w
          = (Some (Path.join t (b +:+ "." +:+ ext)),
             set_fs w (<[Path.join t (b +:+ "." +:+ ext) := NFile c m]> (w_fs w))).
Proof.
  unfold extract_icon. destruct (negb _); [by left|].
  destruct (can_exec e a w) as [c0|]; [|by left].
  destruct (env_extract e c0) as [succ tree]. destruct (negb succ); [by left|].
  destruct (list_find _ _) as [[k src]|] eqn:Ef; [|by left].
  apply list_find_Some in Ef as [Hk _].
  apply list_elem_of_lookup_2, list_elem_of_In, icon_candidate_ext in Hk.
  cbv zeta. fold (icon_ext_of src).
  destruct (tree_lookup tree src) as [[c m|]|]; try by left.
  destruct (w_fs w !! _) as [[|]|]; try (by left);
    case_bool_decide; try (by left); right; exists (icon_ext_of src), c, m; by split.
Qed.

Lemma extract_icon_result (e : env) (appimage_path target_dir base_id : string) (w : world) :
  extract_icon e appimage_path target_dir base_id w = (None, w)
  \/ exists ext c m,
       In ext ["png"; "svg"; "xpm"; "ico"]
       /\ extract_icon e appimage_path target_dir base_id w
          = (Some (Path.join target_dir (base_id +:+ "." +:+ ext)),
             set_fs w (<[Path.join target_dir (base_id +:+ "." +:+ ext) := NFile c m]>
                         (w_fs w))).
Proof. apply extract_icon_shape. Qed.

(* ------------------------------------------------------------------ *)
(** ** Creating the directories *)

(** [w'] keeps every path of [w] with its node, the protected paths and
    the started processes; it may hold more paths. *)
Definition only_adds (w w' : world) : Prop :=
  (forall p n, w_fs w !! p = Some n -> w_fs w' !! p = Some n)
  /\ w_ro w' = w_ro w /\ w_spawned w' = w_spawned w.

Lemma only_adds_refl (w : world) : only_adds w w.
Proof. repeat split; auto. Qed.

Lemma only_adds_trans (w1 w2 w3 : world) :
  only_adds w1 w2 -> only_adds w2 w3 -> only_adds w1 w3.
Proof.
  intros [H1 [R1 S1]] [H2 [R2 S2]]. split; [auto|]. split; congruence.
Qed.

Lemma only_adds_create_one (b : bool) (q : string) (w : world) :
  only_adds w (snd (create_one b q w)).
Proof.
  unfold create_one. destruct (w_fs w !! q) as [[|]|] eqn:E; try apply only_adds_refl.
  case_bool_decide; [apply only_adds_refl|]. split; [|split; reflexivity].
  intros p n Hp. simpl. rewrite lookup_insert_ne; [exact Hp|congruence].
Qed.

Lemma only_adds_create_all (qs : list string) (w : world) :
  only_adds w (snd (create_all qs w)).
Proof.
  revert w. induction qs as [|q qs IH]; intros w; simpl; [apply only_adds_refl|].
  set (b := match qs with [] => true | _ => false end).
  unfold mbind. pose proof (only_adds_create_one b q w) as H1.
  destruct (create_one b q w) as [[]w1]; simpl in H1; [|exact H1].
  exact (only_adds_trans _ _ _ H1 (IH w1)).
Qed.

Lemma only_adds_create_dir_all (p : string) (w : world) :
  only_adds w (snd (create_dir_all p w)).
Proof.
  unfold create_dir_all. destruct (_ || _); [apply only_adds_refl|apply only_adds_create_all].
Qed.

Lemma only_adds_ensure_dirs (e : env) (w : world) : only_adds w (snd (ensure_dirs e w)).
Proof.
  unfold ensure_dirs. destruct (env_data_dir e) as [dd|]; [|apply only_adds_refl].
  destruct (apps_of e dd); [|apply only_adds_refl].
  unfold mbind. pose proof (only_adds_create_dir_all (storage_of dd) w) as H1.
  destruct (create_dir_all (storage_of dd) w) as [[]w1]; simpl in H1; [|exact H1].
  pose proof (only_adds_create_dir_all a w1) as H2.
  destruct (create_dir_all a w1) as [[]w2]; simpl in H2; [|exact (only_adds_trans _ _ _ H1 H2)].
  exact (only_adds_trans _ _ _ H1 H2).
Qed.

(** [ensure_dirs] never removes or changes an existing path (it only
    creates directories), and when it succeeds it returns
    [{data_dir}/axec/appimages] and the menu directory for the current
    mode, both of which are then directories. *)
Lemma ensure_dirs_effect (e : env) (w : world) :
  only_adds w (snd (ensure_dirs e w))
  /\ (forall s a w', ensure_dirs e w = (Ok (s, a), w') ->
      exists dd, env_data_dir e = Some dd /\ s = storage_of dd /\ apps_of e dd = Ok a
                 /\ is_dir s w' = true /\ is_dir a w' = true).
Proof.
  split; [apply only_adds_ensure_dirs|].
  intros s a w' H. apply ensure_dirs_ok in H as (dd & H1 & H2 & H3 & H4 & H5).
  exists dd. auto.
Qed.


(* ------------------------------------------------------------------ *)
(** ** The stored bundle *)

Lemma fs_copy_ok_eq (src dst : string) (w w' : world) :
  fs_copy src dst w = (Ok tt, w') ->
  exists c m, w_fs w !! src = Some (NFile c m) /\ (dst ∉ w_ro w)
              /\ w' = set_fs w (<[dst := NFile (if bool_decide (dst = src)
                                                then "" else c) m]> (w_fs w)).
Proof.
  unfold fs_copy. destruct (w_fs w !! src) as [[c m|]|]; try discriminate.
  destruct (w_fs w !! dst) as [[|]|]; try discriminate;
    case_bool_decide; try discriminate; intros [= <-]; by exists c, m.
Qed.

Lemma make_executable_ok_eq (p : string) (c : string) (m : N) (w w' : world) :
  w_fs w !! p = Some (NFile c m) -> make_executable p w = (Ok tt, w') ->
  w' = set_fs w (<[p := NFile c 493%N]> (w_fs w)).
Proof.
  unfold make_executable. intros ->. case_bool_decide; [discriminate|].
  intros [= <-]. reflexivity.
Qed.

Lemma write_desktop_file_frame (nm ex : string) (ic : option string) (d : string)
  (w : world) (r : result unit io_error) (w' : world) :
  write_desktop_file nm ex ic d w = (r, w') ->
  w_ro w' = w_ro w /\ forall q, q <> d -> w_fs w' !! q = w_fs w !! q.
Proof.
  unfold write_desktop_file. cbv zeta.
  destruct (w_fs w !! d) as [[|]|]; try (case_bool_decide);
    intros [= <- <-]; (split; [reflexivity|]); intros q Hq; simpl; try reflexivity;
    by rewrite lookup_insert_ne.
Qed.
Lemma dest_last (s i : string) :
  last (list_ascii_of_string (Path.join s (i +:+ ".AppImage"))) = Some "e"%char.
Proof.
  exact (last_artifact s i "AppImage" ltac:(discriminate)).
Qed.

Lemma add_appimage_bundle (e : env) (src : string) (w w1 : world) (en : AppImageEntry) :
  add_appimage e src w = (Ok en, w1) ->
  exists c m, w_fs w !! src = Some (NFile c m)
              /\ w_fs w1 !! path en
                 = Some (NFile (if bool_decide (path en = src) then "" else c) 493%N)
              /\ path en ∉ w_ro w1.
Proof.
  unfold add_appimage. destruct (negb (exists_b src w)) eqn:Hx; [discriminate|].
  apply negb_false_iff in Hx. unfold exists_b in Hx. apply bool_decide_eq_true in Hx.
  destruct Hx as [n0 Hn0].
  unfold mbind at 1, map_err at 1.
  pose proof (only_adds_ensure_dirs e w) as [Hk [Hro2 _]].
  destruct (ensure_dirs e w) as [[[s a]|err] w2] eqn:Ed; [|discriminate].
  simpl in Hk, Hro2.
  set (i := sanitize_filename (parse_appimage_name src)).
  set (dest := Path.join s (i +:+ ".AppImage")).
  unfold mbind, map_err.
  destruct (fs_copy src dest w2) as [[[]|] w3] eqn:Ec; [|discriminate].
  apply fs_copy_ok_eq in Ec as (c & m & Hsrc & Hro & ->).
  assert (Hn : n0 = NFile c m) by (apply Hk in Hn0; congruence). subst n0.
  set (c0 := if bool_decide (dest = src) then "" else c) in *.
  destruct (make_executable dest _) as [[[]|] w4] eqn:Em; [|discriminate].
  apply (make_executable_ok_eq dest c0 m) in Em;
    [|cbn [w_fs set_fs]; apply lookup_insert_eq].
  subst w4.
  set (w4 := set_fs _ _).
  assert (H4 : w_fs w4 !! dest = Some (NFile c0 493%N)) by (cbn [w_fs set_fs]; apply lookup_insert_eq).
  assert (R4 : w_ro w4 = w_ro w2) by reflexivity.
  assert (Hdl := dest_last s i).
  destruct (extract_icon e dest s i w4) as [icon w5] eqn:Ex.
  assert (H5 : w_fs w5 !! dest = Some (NFile c0 493%N) /\ w_ro w5 = w_ro w2).
  { destruct (extract_icon_shape e dest s i w4) as [Hn | (ext & c' & m' & Hext & Hs)];
      rewrite Ex in Hn || rewrite Ex in Hs.
    - pose proof (f_equal snd Hn) as Hw. cbn [snd] in Hw. rewrite Hw. split; [exact H4 | exact R4].
    - pose proof (f_equal snd Hs) as Hw. cbn [snd] in Hw. rewrite Hw. split; [|exact R4]. cbn [w_fs set_fs].
      rewrite lookup_insert_ne; [exact H4|].
      intros Heq. destruct (icon_ext_last ext Hext) as [Hne Hl].
      rewrite <- (last_artifact s i ext Hne), Heq in Hl. unfold dest in Hl.
      rewrite Hdl in Hl. apply list_elem_of_In in Hl.
      destruct Hl as [Hl|[Hl|[Hl|[]]]]; discriminate Hl. }
  destruct H5 as [H5 R5].
  exists c, m. split; [exact Hn0|].
  destruct (negb (in_flatpak_sandbox e)).
  - destruct (write_desktop_file _ _ _ _ w5) as [[[]|] w6] eqn:Ew; [|discriminate].
    apply write_desktop_file_frame in Ew as [R6 F6].
    unfold mret in H. injection H as <- <-. cbn [path]. split.
    + rewrite F6; [exact H5|]. intros Heq.
      pose proof (last_desktop a i) as Hd. rewrite <- Heq in Hd. unfold dest in Hd.
      rewrite Hdl in Hd. discriminate.
    + rewrite R6, R5. exact Hro.
  - unfold mret in H. injection H as <- <-. cbn [path]. split; [exact H5|]. rewrite R5. exact Hro.
Qed.

(** After a successful [add_appimage], the stored bundle is a regular file
    with mode 0o755 and the content of the source file, except when the
    source is the stored bundle itself: [fs::copy] truncates its
    destination first, so that bundle is left empty. *)
Lemma add_appimage_stores_executable_copy (e : env) (src : string) (w w1 : world)
  (en : AppImageEntry) :
  add_appimage e src w = (Ok en, w1) ->
  exists c m, w_fs w !! src = Some (NFile c m)
              /\ w_fs w1 !! path en
                 = Some (NFile (if bool_decide (path en = src) then "" else c) 493%N).
Proof.
  intros H. destruct (add_appimage_bundle e src w w1 en H) as (c & m & H1 & H2 & _).
  exists c, m. exact (conj H1 H2).
Qed.

Lemma add_appimage_stores_executable_copy_witness :
  (add_appimage demo_env "/tmp/MyApp-1.2.3_x86_64.AppImage" demo_world
   = (Ok (mkEntry "myapp-1-2-3_x86_64" "MyApp-1 2 3_x86_64"
            "/home/u/.local/share/axec/appimages/myapp-1-2-3_x86_64.AppImage"
            (Some "/home/u/.local/share/axec/appimages/myapp-1-2-3_x86_64.png")
            "/home/u/.local/share/applications/axec-myapp-1-2-3_x86_64.desktop"),
      snd (add_appimage demo_env "/tmp/MyApp-1.2.3_x86_64.AppImage" demo_world))
   /\ exists c m, w_fs demo_world !! "/tmp/MyApp-1.2.3_x86_64.AppImage" = Some (NFile c m)
        /\ w_fs (snd (add_appimage demo_env "/tmp/MyApp-1.2.3_x86_64.AppImage" demo_world))
             !! "/home/u/.local/share/axec/appimages/myapp-1-2-3_x86_64.AppImage"
           = Some (NFile c 493%N))
  /\ (fst (add_appimage demo_env "/home/u/.local/share/axec/appimages/x.AppImage"
            demo_store_world)
      = Ok (mkEntry "x" "x" "/home/u/.local/share/axec/appimages/x.AppImage"
              (Some "/home/u/.local/share/axec/appimages/x.png")
              "/home/u/.local/share/applications/axec-x.desktop")
      /\ w_fs demo_store_world !! "/home/u/.local/share/axec/appimages/x.AppImage"
         = Some (NFile "ELF" 420%N)
      /\ w_fs (snd (add_appimage demo_env "/home/u/.local/share/axec/appimages/x.AppImage"
                     demo_store_world))
           !! "/home/u/.local/share/axec/appimages/x.AppImage"
         = Some (NFile "" 493%N)).
Proof.
  split.
  - assert (H : add_appimage demo_env "/tmp/MyApp-1.2.3_x86_64.AppImage" demo_world
      = (Ok (mkEntry "myapp-1-2-3_x86_64" "MyApp-1 2 3_x86_64"
             "/home/u/.local/share/axec/appimages/myapp-1-2-3_x86_64.AppImage"
             (Some "/home/u/.local/share/axec/appimages/myapp-1-2-3_x86_64.png")
             "/home/u/.local/share/applications/axec-myapp-1-2-3_x86_64.desktop"),
         snd (add_appimage demo_env "/tmp/MyApp-1.2.3_x86_64.AppImage" demo_world)))
      by (vm_compute; reflexivity).
    split; [exact H|].
    destruct (add_appimage_stores_executable_copy _ _ _ _ _ H) as (c & m & H1 & H2).
    exists c, m. split; [exact H1|]. cbn [path] in H2. rewrite H2.
    rewrite bool_decide_eq_false_2; [reflexivity|]. discriminate.
  - assert (H : add_appimage demo_env "/home/u/.local/share/axec/appimages/x.AppImage"
                  demo_store_world
      = (Ok (mkEntry "x" "x" "/home/u/.local/share/axec/appimages/x.AppImage"
               (Some "/home/u/.local/share/axec/appimages/x.png")
              "/home/u/.local/share/applications/axec-x.desktop"),
         snd (add_appimage demo_env "/home/u/.local/share/axec/appimages/x.AppImage"
                demo_store_world)))
      by (vm_compute; reflexivity).
    destruct (add_appimage_stores_executable_copy _ _ _ _ _ H) as (c & m & H1 & H2).
    split; [rewrite H; reflexivity|].
    assert (Hc : w_fs demo_store_world !! "/home/u/.local/share/axec/appimages/x.AppImage"
                 = Some (NFile "ELF" 420%N)) by (vm_compute; reflexivity).
    split; [exact Hc|]. cbn [path] in H2. rewrite H2.
    rewrite Hc in H1. injection H1 as <- <-.
    rewrite bool_decide_eq_true_2; reflexivity.
Defined.

(* ------------------------------------------------------------------ *)
(** ** Listing the stored bundles *)

Lemma read_dir_is_dir (s : string) (w : world) :
  is_dir s w = true -> exists names, read_dir s w = Some names.
Proof.
  unfold is_dir, read_dir. destruct (w_fs w !! s) as [[|]|]; try discriminate. eauto.
Qed.

Lemma read_dir_key (s n : string) (w : world) (names : list string) :
  read_dir s w = Some names -> n ∈ names -> is_Some (w_fs w !! Path.join s n).
Proof.
  unfold read_dir. destruct (w_fs w !! s) as [[|]|]; try discriminate.
  intros [= <-] Hn. apply list_elem_of_omap in Hn as [[k v] [Hin He]].
  simpl in He. apply entry_of_Some in He as [-> Hen].
  rewrite join_relative by (by apply entry_name_no_leading_slash).
  exists v. by apply elem_of_map_to_list.
Qed.

Lemma join_entry_inj (s n1 n2 : string) :
  is_entry_name (list_ascii_of_string n1) = true ->
  is_entry_name (list_ascii_of_string n2) = true ->
  Path.join s n1 = Path.join s n2 -> n1 = n2.
Proof.
  intros H1 H2. rewrite !join_relative by (by apply entry_name_no_leading_slash).
  apply (inj (String.append (Path.dir_prefix s))).
Qed.

Lemma list_apps_shape (e : env) (w w' : world) (r : list AppImageEntry) :
  list_apps e w = (Ok r, w') ->
  exists dd a names, env_data_dir e = Some dd /\ apps_of e dd = Ok a /\ only_adds w w'
    /\ read_dir (storage_of dd) w' = Some names
    /\ r = concat (map (fun n => list_entry (storage_of dd) a
                                   (Path.join (storage_of dd) n) w') names).
Proof.
  unfold list_apps, mbind, map_err.
  pose proof (only_adds_ensure_dirs e w) as Hk.
  destruct (ensure_dirs e w) as [[[s a]|err] w2] eqn:Ed; [|discriminate].
  simpl in Hk.
  apply ensure_dirs_ok in Ed as (dd & Hdd & Ha & -> & Hs & _).
  destruct (read_dir_is_dir _ _ Hs) as [names Hn].
  rewrite Hn. intros [= <- <-].
  exists dd, a, names. exact (conj Hdd (conj Ha (conj Hk (conj Hn eq_refl)))).
Qed.

Lemma list_entry_cases (s a p : string) (w : world) :
  list_entry s a p w = [] \/ exists x, list_entry s a p w = [x].
Proof.
  unfold list_entry. destruct (Path.extension p); [|by left].
  case_bool_decide; [right; eauto|by left].
Qed.

Lemma list_entry_fields (s a p : string) (w : world) (x : AppImageEntry) :
  In x (list_entry s a p w) ->
  path x = p
  /\ (exists ext, Path.extension p = Some ext /\ Str.to_ascii_lowercase ext = "appimage")
  /\ name x = parse_appimage_name p
  /\ id x = sanitize_filename (name x)
  /\ desktop_file x = Path.join a (desktop_name (id x))
  /\ (forall q, icon_path x = Some q ->
        exists_b q w = true
        /\ exists ext, In ext ["png"; "svg"; "ico"; "xpm"]
                       /\ q = Path.join s (id x +:+ "." +:+ ext)).
Proof.
  unfold list_entry. destruct (Path.extension p) as [ext|] eqn:Ee; [|intros []].
  case_bool_decide as Hl; [|intros []].
  intros [<-|[]]. cbn [path name id desktop_file icon_path].
  split; [reflexivity|]. split; [eauto|].
  do 3 (split; [reflexivity|]).
  intros q Hq.
  destruct (list_find _ _) as [[j q']|] eqn:Ef; [|discriminate].
  injection Hq as ->.
  apply list_find_Some in Ef as [Hj [Hx _]]. split; [exact Hx|].
  apply list_elem_of_lookup_2, list_elem_of_fmap in Hj as [x' [-> Hx']].
  exists x'. split; [by apply list_elem_of_In|reflexivity].
Qed.

Lemma in_listing (s a : string) (w : world) (names : list string) (x : AppImageEntry) :
  In x (concat (map (fun n => list_entry s a (Path.join s n) w) names)) ->
  exists n, n ∈ names /\ In x (list_entry s a (Path.join s n) w).
Proof.
  intros Hx. apply in_concat in Hx as [l [Hl Hx]].
  apply in_map_iff in Hl as [n [<- Hn]].
  exists n. split; [by apply list_elem_of_In|exact Hx].
Qed.

Lemma listing_paths_NoDup (s a : string) (w : world) (names : list string) :
  NoDup names -> (forall n, n ∈ names -> is_entry_name (list_ascii_of_string n) = true) ->
  NoDup (map path (concat (map (fun n => list_entry s a (Path.join s n) w) names))).
Proof.
  induction names as [|n ns IH]; intros Hnd Hen; [constructor|].
  apply NoDup_cons in Hnd as [Hn Hnd].
  cbn [map concat]. rewrite map_app. apply NoDup_app. split; [|split].
  - destruct (list_entry_cases s a (Path.join s n) w) as [-> | [x ->]];
      [constructor|]. apply NoDup_singleton.
  - intros p Hp Hp'.
    apply list_elem_of_fmap in Hp as [x [-> Hx]].
    apply list_elem_of_fmap in Hp' as [y [Hxy Hy]].
    apply list_elem_of_In in Hx, Hy.
    apply list_entry_path in Hx.
    apply in_listing in Hy as [n' [Hn' Hy]]. apply list_entry_path in Hy.
    apply Hn. enough (n = n') as -> by exact Hn'.
    apply (join_entry_inj s); [apply Hen; left|apply Hen; right; exact Hn'|].
    congruence.
  - apply IH; [exact Hnd|]. intros m Hm. apply Hen. by right.
Qed.

Lemma listed_entry (e : env) (w w' : world) (r : list AppImageEntry) (x : AppImageEntry) :
  list_apps e w = (Ok r, w') -> In x r ->
  exists dd a n, env_data_dir e = Some dd /\ apps_of e dd = Ok a
    /\ is_entry_name (list_ascii_of_string n) = true
    /\ is_Some (w_fs w' !! Path.join (storage_of dd) n)
    /\ In x (list_entry (storage_of dd) a (Path.join (storage_of dd) n) w').
Proof.
  intros H Hx. apply list_apps_shape in H as (dd & a & names & Hdd & Ha & _ & Hn & ->).
  apply in_listing in Hx as [n [Hin Hx]].
  exists dd, a, n. repeat split; try assumption.
  - exact (read_dir_entry_name _ _ _ _ Hn Hin).
  - exact (read_dir_key _ _ _ _ Hn Hin).
Qed.

Definition demo_store_listing : list AppImageEntry :=
  [mkEntry "y" "y" "/home/u/.local/share/axec/appimages/y.APPIMAGE" None
     "/home/u/.local/share/applications/axec-y.desktop";
   mkEntry "x" "x" "/home/u/.local/share/axec/appimages/x.AppImage" None
     "/home/u/.local/share/applications/axec-x.desktop"].

Lemma demo_store_list_apps :
  list_apps demo_env demo_store_world = (Ok demo_store_listing, demo_store_world).
Proof. vm_compute. reflexivity. Qed.

(** [list_apps] never lists the same bundle twice: the paths of the
    entries it returns are pairwise distinct. *)
Lemma list_apps_paths_distinct (e : env) (w w' : world) (r : list AppImageEntry) :
  list_apps e w = (Ok r, w') -> NoDup (map path r).
Proof.
  intros H. apply list_apps_shape in H as (dd & a & names & _ & _ & _ & Hn & ->).
  apply listing_paths_NoDup; [exact (read_dir_NoDup _ _ _ Hn)|].
  intros n Hin. exact (read_dir_entry_name _ _ _ _ Hn Hin).
Qed.

Lemma list_apps_paths_distinct_witness :
  list_apps demo_env demo_store_world = (Ok demo_store_listing, demo_store_world)
  /\ NoDup (map path demo_store_listing).
Proof.
  split; [exact demo_store_list_apps|].
  exact (list_apps_paths_distinct _ _ _ _ demo_store_list_apps).
Defined.

(** Every entry [list_apps] returns is an existing file directly inside
    the storage directory, whose extension is [appimage] in any letter
    case; the call only adds directories to the file system. *)
Lemma list_apps_entry_path (e : env) (w w' : world) (r : list AppImageEntry)
  (x : AppImageEntry) :
  list_apps e w = (Ok r, w') -> In x r ->
  only_adds w w'
  /\ exists dd n, env_data_dir e = Some dd
       /\ is_entry_name (list_ascii_of_string n) = true
       /\ path x = Path.join (storage_of dd) n
       /\ is_Some (w_fs w' !! path x)
       /\ exists ext, Path.extension (path x) = Some ext
                      /\ Str.to_ascii_lowercase ext = "appimage".
Proof.
  intros H Hx. split.
  - apply list_apps_shape in H as (dd & a & names & _ & _ & Hk & _). exact Hk.
  - destruct (listed_entry e w w' r x H Hx) as (dd & a & n & Hdd & _ & Hen & Hs & Hin).
    destruct (list_entry_fields _ _ _ _ _ Hin) as (Hp & Hext & _).
    exists dd, n. rewrite Hp. exact (conj Hdd (conj Hen (conj eq_refl (conj Hs Hext)))).
Qed.

Lemma list_apps_entry_path_witness :
  list_apps demo_env demo_store_world = (Ok demo_store_listing, demo_store_world)
  /\ In (mkEntry "y" "y" "/home/u/.local/share/axec/appimages/y.APPIMAGE" None
          "/home/u/.local/share/applications/axec-y.desktop") demo_store_listing
  /\ only_adds demo_store_world demo_store_world
  /\ exists dd n, env_data_dir demo_env = Some dd
       /\ is_entry_name (list_ascii_of_string n) = true
       /\ "/home/u/.local/share/axec/appimages/y.APPIMAGE" = Path.join (storage_of dd) n
       /\ is_Some (w_fs demo_store_world !! "/home/u/.local/share/axec/appimages/y.APPIMAGE")
       /\ exists ext, Path.extension "/home/u/.local/share/axec/appimages/y.APPIMAGE" = Some ext
                      /\ Str.to_ascii_lowercase ext = "appimage".
Proof.
  assert (Hin : In (mkEntry "y" "y" "/home/u/.local/share/axec/appimages/y.APPIMAGE" None
          "/home/u/.local/share/applications/axec-y.desktop") demo_store_listing)
    by (left; reflexivity).
  split; [exact demo_store_list_apps|]. split; [exact Hin|].
  exact (list_apps_entry_path _ _ _ _ _ demo_store_list_apps Hin).
Defined.

(* ------------------------------------------------------------------ *)
(** ** What [remove_app] deletes *)

(** [w'] is [w] with some regular files of [S] deleted. *)
Definition removes (S : list string) (w w' : world) : Prop :=
  (forall q, w_fs w' !! q = w_fs w !! q
             \/ (q ∈ S /\ w_fs w' !! q = None
                 /\ exists c m, w_fs w !! q = Some (NFile c m)))
  /\ w_ro w' = w_ro w /\ w_spawned w' = w_spawned w.

Lemma removes_refl (S : list string) (w : world) : removes S w w.
Proof. split; [intros q; by left|done]. Qed.

Lemma removes_trans (S1 S2 : list string) (w1 w2 w3 : world) :
  removes S1 w1 w2 -> removes S2 w2 w3 -> removes (S1 ++ S2) w1 w3.
Proof.
  intros [H1 [R1 P1]] [H2 [R2 P2]]. split; [|split; congruence].
  intros q. destruct (H2 q) as [E2 | (Hq2 & N2 & c2 & m2 & F2)];
    destruct (H1 q) as [E1 | (Hq1 & N1 & c1 & m1 & F1)].
  - left. congruence.
  - right. split; [set_solver|]. split; [congruence|eauto].
  - right. split; [set_solver|]. split; [exact N2|]. exists c2, m2. congruence.
  - congruence.
Qed.

Lemma removes_mono (S S' : list string) (w w' : world) :
  S ⊆ S' -> removes S w w' -> removes S' w w'.
Proof.
  intros Hs [H R]. split; [|exact R]. intros q.
  destruct (H q) as [E | (Hq & N & F)]; [by left|right; auto].
Qed.

Lemma removes_absent (S : list string) (w w' : world) (q : string) :
  removes S w w' -> w_fs w !! q = None -> w_fs w' !! q = None.
Proof.
  intros [H _] Hq. destruct (H q) as [E | (_ & N & _)]; congruence.
Qed.

Lemma removes_is_dir (S : list string) (w w' : world) (q : string) :
  removes S w w' -> is_dir q w = true -> is_dir q w' = true.
Proof.
  unfold is_dir. intros [H _]. destruct (H q) as [-> | (_ & _ & c & m & ->)]; [done|].
  discriminate.
Qed.

Lemma removes_remove_file (p : string) (w : world) :
  removes [p] w (snd (remove_file p w)).
Proof.
  unfold remove_file.
  destruct (w_fs w !! p) as [[c m|]|] eqn:E; try apply removes_refl.
  case_bool_decide; [apply removes_refl|].
  split; [|done]. intros q. simpl. destruct (decide (p = q)) as [<-|Hne].
  - right. split; [set_solver|]. split; [apply lookup_delete_eq|eauto].
  - left. by apply lookup_delete_ne.
Qed.

Lemma removes_icons (s i : string) (w : world) :
  removes (icon_paths s i) w (remove_icon_files s i w).
Proof.
  unfold icon_paths, remove_icon_files. generalize icon_exts as xs. intros xs.
  revert w. induction xs as [|x xs IH]; intros w; simpl; [apply removes_refl|].
  eapply removes_mono; [|eapply removes_trans; [apply removes_remove_file|apply IH]].
  set_solver.
Qed.

Lemma removes_bundles (s i : string) (exts : list string) (ok : bool) (w : world)
  (r : result bool string) (w' : world) :
  remove_bundles s i exts ok w = (r, w') ->
  removes (map (fun x => Path.join s (i +:+ "." +:+ x)) exts) w w'.
Proof.
  revert ok w. induction exts as [|x exts IH]; intros ok w; simpl.
  - intros [= _ <-]. apply removes_refl.
  - destruct (exists_b _ w).
    + unfold mbind, map_err.
      pose proof (removes_remove_file (Path.join s (i +:+ "." +:+ x)) w) as Hr.
      destruct (remove_file _ w) as [[[]|err] w1]; simpl in Hr.
      * intros H. apply IH in H.
        eapply removes_mono; [|exact (removes_trans _ _ _ _ _ Hr H)]. set_solver.
      * intros [= _ <-]. eapply removes_mono; [|exact Hr]. set_solver.
    + intros H. apply IH in H. eapply removes_mono; [|exact H]. set_solver.
Qed.

(** Each candidate bundle is gone once the bundle loop has succeeded. *)
Lemma remove_bundles_gone (s i : string) (exts : list string) (ok : bool) (w : world)
  (b : bool) (w' : world) :
  remove_bundles s i exts ok w = (Ok b, w') ->
  Forall (fun x => w_fs w' !! Path.join s (i +:+ "." +:+ x) = None) exts.
Proof.
  revert ok w. induction exts as [|x exts IH]; intros ok w; simpl; [constructor|].
  destruct (exists_b _ w) eqn:Ex.
  - unfold mbind, map_err.
    pose proof (removes_remove_file (Path.join s (i +:+ "." +:+ x)) w) as Hr.
    destruct (remove_file _ w) as [[[]|err] w1] eqn:Er; simpl in Hr; [|discriminate].
    intros H. constructor; [|exact (IH _ _ H)].
    eapply removes_absent; [exact (removes_bundles _ _ _ _ _ _ _ H)|].
    unfold remove_file in Er.
    destruct (w_fs w !! _) as [[|]|]; try discriminate.
    case_bool_decide; [discriminate|]. injection Er as <-. apply lookup_delete_eq.
  - intros H. constructor; [|exact (IH _ _ H)].
    eapply removes_absent; [exact (removes_bundles _ _ _ _ _ _ _ H)|].
    unfold exists_b in Ex. apply bool_decide_eq_false in Ex.
    by apply eq_None_not_Some.
Qed.

(** [remove_app] once [ensure_dirs] has given the two directories: the
    bundle loop, then the icons and the menu entry. *)
Lemma remove_app_steps (e : env) (i dd a : string) (w : world)
  (r : result unit string) (w' : world) :
  env_data_dir e = Some dd -> apps_of e dd = Ok a ->
  remove_app e i w = (r, w') ->
  (exists w2, only_adds w w2 /\ is_dir (storage_of dd) w2 = true /\ is_dir a w2 = true
    /\ ((exists msg, r = Err msg
         /\ removes (map (fun x => Path.join (storage_of dd) (i +:+ "." +:+ x))
                      ["AppImage"; "appimage"]) w2 w')
        \/ exists ok w3, remove_bundles (storage_of dd) i ["AppImage"; "appimage"] false w2
                         = (Ok ok, w3)
             /\ removes (icon_paths (storage_of dd) i ++ [Path.join a (desktop_name i)]) w3 w'
             /\ (ok = true -> r = Ok tt)))
  \/ (only_adds w w' /\ exists msg, r = Err msg).
Proof.
  intros Hdd Ha H. unfold remove_app, mbind at 1, map_err at 1 in H.
  pose proof (only_adds_ensure_dirs e w) as Hk.
  destruct (ensure_dirs e w) as [[[s a']|err] w2] eqn:Ed; simpl in Hk;
    [|injection H as <- <-; right; eauto].
  apply ensure_dirs_ok in Ed as (dd' & Hdd' & Ha' & -> & Hs & Ha2).
  rewrite Hdd in Hdd'. injection Hdd' as <-. rewrite Ha in Ha'. injection Ha' as <-.
  left. exists w2. split; [exact Hk|]. split; [exact Hs|]. split; [exact Ha2|].
  unfold mbind in H.
  pose proof (removes_bundles (storage_of dd) i ["AppImage"; "appimage"] false w2) as Hb.
  destruct (remove_bundles _ _ _ _ w2) as [[ok|msg] w3] eqn:Eb.
  - right. exists ok, w3. split; [reflexivity|].
    pose proof (removes_icons (storage_of dd) i w3) as Hi.
    destruct (negb (in_flatpak_sandbox e)).
    + destruct (exists_b _ _).
      * injection H as <- <-. split; [|done].
        eapply removes_trans; [exact Hi|]. apply removes_remove_file.
      * destruct ok; injection H as <- <-;
          (split; [eapply removes_mono; [|exact Hi]; set_solver|]); done.
    + destruct ok; injection H as <- <-;
        (split; [eapply removes_mono; [|exact Hi]; set_solver|]); done.
  - injection H as <- <-. left. exists msg. split; [done|]. exact (Hb _ _ eq_refl).
Qed.

Lemma bundle_paths (s i : string) :
  map (fun x => Path.join s (i +:+ "." +:+ x)) ["AppImage"; "appimage"]
  = [Path.join s (i +:+ ".AppImage"); Path.join s (i +:+ ".appimage")].
Proof. reflexivity. Qed.

Lemma adds_then_removes (S : list string) (w w2 w' : world) :
  only_adds w w2 -> removes S w2 w' ->
  w_ro w' = w_ro w /\ w_spawned w' = w_spawned w
  /\ forall q n, w_fs w !! q = Some n ->
       w_fs w' !! q = Some n
       \/ (q ∈ S /\ w_fs w' !! q = None /\ exists c m, n = NFile c m).
Proof.
  intros [Hk [Hro Hsp]] [Hr [Rr Sr]]. split; [congruence|]. split; [congruence|].
  intros q n Hq. apply Hk in Hq.
  destruct (Hr q) as [E | (HS & N & c & m & F)]; [left; congruence|].
  right. split; [exact HS|]. split; [exact N|]. exists c, m. congruence.
Qed.

Lemma remove_app_ok_dirs (e : env) (i : string) (w w' : world) :
  remove_app e i w = (Ok tt, w') ->
  exists dd a, env_data_dir e = Some dd /\ apps_of e dd = Ok a.
Proof.
  unfold remove_app, mbind at 1, map_err at 1.
  destruct (ensure_dirs e w) as [[[s a]|err] w2] eqn:Ed; [|discriminate].
  intros _. apply ensure_dirs_ok in Ed as (dd & Hdd & Ha & _). eauto.
Qed.

(** [remove_app] deletes nothing but regular files among the two bundle
    names, the four icon names and the menu entry of the id; every other
    path keeps its node, and the protected paths and the started
    processes are unchanged. *)
Lemma remove_app_deletes_only_artifacts (e : env) (i dd a : string) (w : world)
  (r : result unit string) (w' : world) :
  env_data_dir e = Some dd -> apps_of e dd = Ok a ->
  remove_app e i w = (r, w') ->
  w_ro w' = w_ro w /\ w_spawned w' = w_spawned w
  /\ forall q n, w_fs w !! q = Some n ->
       w_fs w' !! q = Some n
       \/ (q ∈ [Path.join (storage_of dd) (i +:+ ".AppImage");
                Path.join (storage_of dd) (i +:+ ".appimage")]
                ++ icon_paths (storage_of dd) i ++ [Path.join a (desktop_name i)]
           /\ w_fs w' !! q = None /\ exists c m, n = NFile c m).
Proof.
  intros Hdd Ha H.
  destruct (remove_app_steps e i dd a w r w' Hdd Ha H)
    as [(w2 & Hk & _ & _ & [(msg & _ & Hr) | (ok & w3 & Eb & Hr & _)]) | [Hk _]].
  - apply (adds_then_removes _ _ _ _ Hk). rewrite bundle_paths in Hr.
    eapply removes_mono; [|exact Hr]. set_solver.
  - apply (adds_then_removes _ _ _ _ Hk).
    pose proof (removes_bundles _ _ _ _ _ _ _ Eb) as Hb. rewrite bundle_paths in Hb.
    exact (removes_trans _ _ _ _ _ Hb Hr).
  - destruct Hk as [Hk [Hro Hsp]]. split; [exact Hro|]. split; [exact Hsp|].
    intros q n Hq. left. by apply Hk.
Qed.

Lemma remove_app_deletes_only_artifacts_witness :
  env_data_dir demo_env = Some "/home/u/.local/share"
  /\ apps_of demo_env "/home/u/.local/share" = Ok "/home/u/.local/share/applications"
  /\ remove_app demo_env "x" demo_store_world
     = (fst (remove_app demo_env "x" demo_store_world),
        snd (remove_app demo_env "x" demo_store_world))
  /\ w_ro (snd (remove_app demo_env "x" demo_store_world)) = w_ro demo_store_world
  /\ w_spawned (snd (remove_app demo_env "x" demo_store_world)) = w_spawned demo_store_world
  /\ forall q n, w_fs demo_store_world !! q = Some n ->
       w_fs (snd (remove_app demo_env "x" demo_store_world)) !! q = Some n
       \/ (q ∈ [Path.join (storage_of "/home/u/.local/share") ("x" +:+ ".AppImage");
                Path.join (storage_of "/home/u/.local/share") ("x" +:+ ".appimage")]
                ++ icon_paths (storage_of "/home/u/.local/share") "x"
                ++ [Path.join "/home/u/.local/share/applications" (desktop_name "x")]
           /\ w_fs (snd (remove_app demo_env "x" demo_store_world)) !! q = None
           /\ exists c m, n = NFile c m).
Proof.
  assert (Hd : env_data_dir demo_env = Some "/home/u/.local/share") by reflexivity.
  assert (Ha : apps_of demo_env "/home/u/.local/share"
               = Ok "/home/u/.local/share/applications") by (vm_compute; reflexivity).
  assert (H : remove_app demo_env "x" demo_store_world
     = (fst (remove_app demo_env "x" demo_store_world),
        snd (remove_app demo_env "x" demo_store_world))) by (vm_compute; reflexivity).
  split; [exact Hd|]. split; [exact Ha|]. split; [exact H|].
  exact (remove_app_deletes_only_artifacts _ _ _ _ _ _ _ Hd Ha H).
Defined.

(** The state a successful [remove_app] leaves. *)
Lemma remove_app_ok_state (e : env) (i : string) (w w' : world) :
  remove_app e i w = (Ok tt, w') ->
  exists dd a, env_data_dir e = Some dd /\ apps_of e dd = Ok a
    /\ is_dir (storage_of dd) w' = true /\ is_dir a w' = true
    /\ w_fs w' !! Path.join (storage_of dd) (i +:+ ".AppImage") = None
    /\ w_fs w' !! Path.join (storage_of dd) (i +:+ ".appimage") = None.
Proof.
  intros H.
  destruct (remove_app_ok_dirs e i w w' H) as (dd & a & Hdd & Ha).
  destruct (remove_app_steps e i dd a w _ w' Hdd Ha H)
    as [(w2 & _ & Hs & Ha2 & [(msg & Hm & _) | (ok & w3 & Eb & Hr & _)]) | [_ [msg Hm]]];
    [discriminate| |discriminate].
  pose proof (removes_bundles _ _ _ _ _ _ _ Eb) as Hb.
  pose proof (remove_bundles_gone _ _ _ _ _ _ _ Eb) as Hg.
  apply Forall_cons in Hg as [H1 Hg]. apply Forall_cons in Hg as [H2 _].
  exists dd, a. split; [exact Hdd|]. split; [exact Ha|].
  split; [exact (removes_is_dir _ _ _ _ Hr (removes_is_dir _ _ _ _ Hb Hs))|].
  split; [exact (removes_is_dir _ _ _ _ Hr (removes_is_dir _ _ _ _ Hb Ha2))|].
  split; eapply removes_absent; eassumption.
Qed.

(** When [remove_app] succeeds, neither bundle name of the id is left in
    the storage directory. *)
Lemma remove_app_bundles_gone (e : env) (i dd : string) (w w' : world) :
  env_data_dir e = Some dd -> remove_app e i w = (Ok tt, w') ->
  w_fs w' !! Path.join (storage_of dd) (i +:+ ".AppImage") = None
  /\ w_fs w' !! Path.join (storage_of dd) (i +:+ ".appimage") = None.
Proof.
  intros Hdd H.
  destruct (remove_app_ok_state e i w w' H) as (dd' & a & Hdd' & _ & _ & _ & H1 & H2).
  rewrite Hdd in Hdd'. injection Hdd' as <-. exact (conj H1 H2).
Qed.

Lemma remove_app_bundles_gone_witness :
  env_data_dir demo_env = Some "/home/u/.local/share"
  /\ remove_app demo_env "x" demo_store_world
     = (Ok tt, snd (remove_app demo_env "x" demo_store_world))
  /\ w_fs (snd (remove_app demo_env "x" demo_store_world))
       !! Path.join (storage_of "/home/u/.local/share") ("x" +:+ ".AppImage") = None
  /\ w_fs (snd (remove_app demo_env "x" demo_store_world))
       !! Path.join (storage_of "/home/u/.local/share") ("x" +:+ ".appimage") = None.
Proof.
  assert (Hd : env_data_dir demo_env = Some "/home/u/.local/share") by reflexivity.
  assert (H : remove_app demo_env "x" demo_store_world
     = (Ok tt, snd (remove_app demo_env "x" demo_store_world))) by (vm_compute; reflexivity).
  split; [exact Hd|]. split; [exact H|].
  exact (remove_app_bundles_gone _ _ _ _ _ Hd H).
Defined.

Lemma remove_app_after_bundles (e : env) (i dd a : string) (w w1 : world) :
  env_data_dir e = Some dd -> apps_of e dd = Ok a ->
  is_dir (storage_of dd) w = true -> is_dir a w = true ->
  remove_bundles (storage_of dd) i ["AppImage"; "appimage"] false w = (Ok true, w1) ->
  exists w2, remove_app e i w = (Ok tt, w2)
    /\ removes (icon_paths (storage_of dd) i ++ [Path.join a (desktop_name i)]) w1 w2.
Proof.
  intros Hdd Ha Hs Ha1 Eb. unfold remove_app, mbind at 1, map_err at 1.
  rewrite (ensure_dirs_existing e dd a w Hdd Ha Hs Ha1). cbv beta iota.
  unfold mbind. rewrite Eb.
  pose proof (removes_icons (storage_of dd) i w1) as Hi.
  destruct (negb (in_flatpak_sandbox e)); [destruct (exists_b _ _)|];
    (eexists; split; [reflexivity|]).
  - eapply removes_trans; [exact Hi|]. apply removes_remove_file.
  - eapply removes_mono; [|exact Hi]. set_solver.
  - eapply removes_mono; [|exact Hi]. set_solver.
Qed.

Lemma list_apps_existing (e : env) (dd a : string) (w : world) :
  env_data_dir e = Some dd -> apps_of e dd = Ok a ->
  is_dir (storage_of dd) w = true -> is_dir a w = true ->
  exists r, list_apps e w = (Ok r, w).
Proof.
  intros Hdd Ha Hs Ha1. unfold list_apps, mbind, map_err.
  rewrite (ensure_dirs_existing e dd a w Hdd Ha Hs Ha1). eauto.
Qed.

Lemma list_apps_absent (e : env) (w : world) (r : list AppImageEntry) (p : string) :
  list_apps e w = (Ok r, w) -> w_fs w !! p = None -> Forall (fun x => path x <> p) r.
Proof.
  intros H Hp. apply List.Forall_forall. intros x Hx.
  destruct (listed_entry e w w r x H Hx) as (dd & a & n & _ & _ & _ & Hs & Hin).
  apply list_entry_path in Hin. rewrite Hin. intros <-. rewrite Hp in Hs.
  by apply is_Some_None in Hs.
Qed.

(** Removing the id that [add_appimage] returned deletes the bundle it
    stored and succeeds; a later [list_apps] does not list that bundle.
    The precondition excludes a second bundle [<id>.appimage] that the
    removal would also have to delete. *)
Lemma add_then_remove_unlisted (e : env) (src dd : string) (w w1 : world)
  (en : AppImageEntry) :
  add_appimage e src w = (Ok en, w1) ->
  env_data_dir e = Some dd ->
  w_fs w1 !! Path.join (storage_of dd) (id en +:+ ".appimage") = None ->
  exists w2, remove_app e (id en) w1 = (Ok tt, w2)
    /\ w_fs w2 !! path en = None
    /\ exists r, list_apps e w2 = (Ok r, w2) /\ Forall (fun x => path x <> path en) r.
Proof.
  intros Hadd Hdd Hlow.
  destruct (add_appimage_ok _ _ _ _ _ Hadd) as (dd' & a & Hdd' & Ha & _ & Hp & Hs & Ha1 & _).
  rewrite Hdd in Hdd'. injection Hdd' as <-.
  destruct (add_appimage_bundle _ _ _ _ _ Hadd) as (c & m & _ & Hf & Hro).
  assert (Er : remove_file (path en) w1 = (Ok tt, set_fs w1 (delete (path en) (w_fs w1)))).
  { unfold remove_file. rewrite Hf. by rewrite bool_decide_eq_false_2. }
  set (w1' := set_fs w1 (delete (path en) (w_fs w1))) in Er.
  assert (Hr1 := removes_remove_file (path en) w1). rewrite Er in Hr1. simpl in Hr1.
  assert (Hgone : w_fs w1' !! path en = None) by apply lookup_delete_eq.
  assert (Eb : remove_bundles (storage_of dd) (id en) ["AppImage"; "appimage"] false w1
               = (Ok true, w1')).
  { cbn [remove_bundles].
    change (Path.join (storage_of dd) (id en +:+ "." +:+ "AppImage")) with
      (Path.join (storage_of dd) (id en +:+ ".AppImage")).
    change (Path.join (storage_of dd) (id en +:+ "." +:+ "appimage")) with
      (Path.join (storage_of dd) (id en +:+ ".appimage")).
    rewrite <- Hp.
    assert (Hx1 : exists_b (path en) w1 = true)
      by (unfold exists_b; rewrite Hf; by apply bool_decide_eq_true_2).
    rewrite Hx1. unfold mbind, map_err. rewrite Er.
    assert (Hx2 : exists_b (Path.join (storage_of dd) (id en +:+ ".appimage")) w1' = false).
    { unfold exists_b. apply bool_decide_eq_false_2.
      rewrite (removes_absent _ _ _ _ Hr1 Hlow). by apply is_Some_None. }
    rewrite Hx2. reflexivity. }
  destruct (remove_app_after_bundles e (id en) dd a w1 w1' Hdd Ha Hs Ha1 Eb)
    as (w2 & Hrm & Hr2).
  exists w2. split; [exact Hrm|].
  assert (Hg2 : w_fs w2 !! path en = None) by exact (removes_absent _ _ _ _ Hr2 Hgone).
  split; [exact Hg2|].
  destruct (list_apps_existing e dd a w2 Hdd Ha) as [r Hl].
  - exact (removes_is_dir _ _ _ _ Hr2 (removes_is_dir _ _ _ _ Hr1 Hs)).
  - exact (removes_is_dir _ _ _ _ Hr2 (removes_is_dir _ _ _ _ Hr1 Ha1)).
  - exists r. split; [exact Hl|]. exact (list_apps_absent _ _ _ _ Hl Hg2).
Qed.

Lemma add_then_remove_unlisted_witness :
  add_appimage demo_env "/tmp/MyApp-1.2.3_x86_64.AppImage" demo_world
  = (Ok (mkEntry "myapp-1-2-3_x86_64" "MyApp-1 2 3_x86_64"
           "/home/u/.local/share/axec/appimages/myapp-1-2-3_x86_64.AppImage"
           (Some "/home/u/.local/share/axec/appimages/myapp-1-2-3_x86_64.png")
           "/home/u/.local/share/applications/axec-myapp-1-2-3_x86_64.desktop"),
     snd (add_appimage demo_env "/tmp/MyApp-1.2.3_x86_64.AppImage" demo_world))
  /\ env_data_dir demo_env = Some "/home/u/.local/share"
  /\ w_fs (snd (add_appimage demo_env "/tmp/MyApp-1.2.3_x86_64.AppImage" demo_world))
       !! Path.join (storage_of "/home/u/.local/share") ("myapp-1-2-3_x86_64" +:+ ".appimage")
     = None
  /\ exists w2, remove_app demo_env "myapp-1-2-3_x86_64"
                  (snd (add_appimage demo_env "/tmp/MyApp-1.2.3_x86_64.AppImage" demo_world))
                = (Ok tt, w2)
       /\ w_fs w2 !! "/home/u/.local/share/axec/appimages/myapp-1-2-3_x86_64.AppImage" = None
       /\ exists r, list_apps demo_env w2 = (Ok r, w2)
          /\ Forall (fun x => path x <>
               "/home/u/.local/share/axec/appimages/myapp-1-2-3_x86_64.AppImage") r.
Proof.
  assert (H : add_appimage demo_env "/tmp/MyApp-1.2.3_x86_64.AppImage" demo_world
    = (Ok (mkEntry "myapp-1-2-3_x86_64" "MyApp-1 2 3_x86_64"
           "/home/u/.local/share/axec/appimages/myapp-1-2-3_x86_64.AppImage"
           (Some "/home/u/.local/share/axec/appimages/myapp-1-2-3_x86_64.png")
           "/home/u/.local/share/applications/axec-myapp-1-2-3_x86_64.desktop"),
       snd (add_appimage demo_env "/tmp/MyApp-1.2.3_x86_64.AppImage" demo_world)))
    by (vm_compute; reflexivity).
  assert (Hd : env_data_dir demo_env = Some "/home/u/.local/share") by reflexivity.
  assert (Hn : w_fs (snd (add_appimage demo_env "/tmp/MyApp-1.2.3_x86_64.AppImage" demo_world))
       !! Path.join (storage_of "/home/u/.local/share") ("myapp-1-2-3_x86_64" +:+ ".appimage")
     = None) by (vm_compute; reflexivity).
  split; [exact H|]. split; [exact Hd|]. split; [exact Hn|].
  exact (add_then_remove_unlisted _ _ _ _ _ _ H Hd Hn).
Defined.

(** A second [remove_app] of an id that was just removed finds no bundle:
    it fails with [App not found] unless the menu entry of the id is still
    there outside the sandbox, and then it succeeds. *)
Lemma remove_app_twice (e : env) (i dd a : string) (w w1 w2 : world)
  (r : result unit string) :
  env_data_dir e = Some dd -> apps_of e dd = Ok a ->
  remove_app e i w = (Ok tt, w1) -> remove_app e i w1 = (r, w2) ->
  (r = Ok tt \/ r = Err "App not found")
  /\ (r = Ok tt <-> in_flatpak_sandbox e = false
                    /\ exists_b (Path.join a (desktop_name i)) w1 = true).
Proof.
  intros Hdd Ha H1 H2.
  destruct (remove_app_ok_state e i w w1 H1) as (dd' & a' & Hdd' & Ha' & Hs & Ha1 & N1 & N2).
  rewrite Hdd in Hdd'. injection Hdd' as <-. rewrite Ha in Ha'. injection Ha' as <-.
  pose proof (remove_app_result e i dd a w1 Hdd Ha Hs Ha1) as Hres.
  rewrite H2 in Hres. cbn [fst] in Hres.
  rewrite remove_bundles_none in Hres.
  2:{ apply List.Forall_cons; [|apply List.Forall_cons; [|apply List.Forall_nil]];
      unfold exists_b; apply bool_decide_eq_false_2; [|];
      [change (Path.join (storage_of dd) (i +:+ "." +:+ "AppImage"))
         with (Path.join (storage_of dd) (i +:+ ".AppImage")); rewrite N1
      |change (Path.join (storage_of dd) (i +:+ "." +:+ "appimage"))
         with (Path.join (storage_of dd) (i +:+ ".appimage")); rewrite N2];
      apply is_Some_None. }
  assert (Hx : exists_b (Path.join a (desktop_name i)) (remove_icon_files (storage_of dd) i w1)
               = exists_b (Path.join a (desktop_name i)) w1).
  { unfold exists_b. by rewrite (remove_icons_other _ _ _ _ (desktop_not_icon _ a i)). }
  cbv beta iota in Hres. rewrite Hx in Hres.
  rewrite orb_false_l in Hres.
  rewrite Hres. destruct (in_flatpak_sandbox e), (exists_b _ w1); cbn;
    intuition congruence.
Qed.

Lemma remove_app_twice_witness :
  env_data_dir demo_env = Some "/home/u/.local/share"
  /\ apps_of demo_env "/home/u/.local/share" = Ok "/home/u/.local/share/applications"
  /\ remove_app demo_env "y" demo_store_world
     = (Ok tt, snd (remove_app demo_env "y" demo_store_world))
  /\ remove_app demo_env "y" (snd (remove_app demo_env "y" demo_store_world))
     = (fst (remove_app demo_env "y" (snd (remove_app demo_env "y" demo_store_world))),
        snd (remove_app demo_env "y" (snd (remove_app demo_env "y" demo_store_world))))
  /\ (fst (remove_app demo_env "y" (snd (remove_app demo_env "y" demo_store_world))) = Ok tt
      \/ fst (remove_app demo_env "y" (snd (remove_app demo_env "y" demo_store_world)))
         = Err "App not found")
  /\ (fst (remove_app demo_env "y" (snd (remove_app demo_env "y" demo_store_world))) = Ok tt
      <-> in_flatpak_sandbox demo_env = false
          /\ exists_b (Path.join "/home/u/.local/share/applications" (desktop_name "y"))
               (snd (remove_app demo_env "y" demo_store_world)) = true).
Proof.
  assert (Hd : env_data_dir demo_env = Some "/home/u/.local/share") by reflexivity.
  assert (Ha : apps_of demo_env "/home/u/.local/share"
               = Ok "/home/u/.local/share/applications") by (vm_compute; reflexivity).
  assert (H1 : remove_app demo_env "y" demo_store_world
     = (Ok tt, snd (remove_app demo_env "y" demo_store_world))) by (vm_compute; reflexivity).
  assert (H2 : remove_app demo_env "y" (snd (remove_app demo_env "y" demo_store_world))
     = (fst (remove_app demo_env "y" (snd (remove_app demo_env "y" demo_store_world))),
        snd (remove_app demo_env "y" (snd (remove_app demo_env "y" demo_store_world)))))
    by (vm_compute; reflexivity).
  split; [exact Hd|]. split; [exact Ha|]. split; [exact H1|]. split; [exact H2|].
  exact (remove_app_twice _ _ _ _ _ _ _ _ Hd Ha H1 H2).
Defined.

(* ------------------------------------------------------------------ *)
(** ** Repeated calls *)

(** Once [ensure_dirs] has succeeded, calling it again returns the same
    two directories and changes nothing. *)
Lemma ensure_dirs_again (e : env) (w w' : world) (s a : string) :
  ensure_dirs e w = (Ok (s, a), w') -> ensure_dirs e w' = (Ok (s, a), w').
Proof.
  intros H. apply ensure_dirs_ok in H as (dd & Hdd & Ha & -> & Hs & Ha1).
  exact (ensure_dirs_existing e dd a w' Hdd Ha Hs Ha1).
Qed.

Lemma ensure_dirs_again_witness :
  ensure_dirs demo_env demo_world
  = (Ok ("/home/u/.local/share/axec/appimages", "/home/u/.local/share/applications"),
     snd (ensure_dirs demo_env demo_world))
  /\ ensure_dirs demo_env (snd (ensure_dirs demo_env demo_world))
     = (Ok ("/home/u/.local/share/axec/appimages", "/home/u/.local/share/applications"),
        snd (ensure_dirs demo_env demo_world)).
Proof.
  assert (H : ensure_dirs demo_env demo_world
    = (Ok ("/home/u/.local/share/axec/appimages", "/home/u/.local/share/applications"),
       snd (ensure_dirs demo_env demo_world))) by (vm_compute; reflexivity).
  split; [exact H|]. exact (ensure_dirs_again _ _ _ _ _ H).
Defined.

(** Listing again right after a successful [list_apps] gives the same
    entries and changes nothing. *)
Lemma list_apps_again (e : env) (w w' : world) (r : list AppImageEntry) :
  list_apps e w = (Ok r, w') -> list_apps e w' = (Ok r, w').
Proof.
  unfold list_apps, mbind at 1, map_err at 1.
  destruct (ensure_dirs e w) as [[[s a]|err] w2] eqn:Ed; [|discriminate].
  intros H. injection H as <- <-.
  unfold mbind, map_err. rewrite (ensure_dirs_again e w w2 s a Ed). reflexivity.
Qed.

Lemma list_apps_again_witness :
  list_apps demo_env demo_world
  = (fst (list_apps demo_env demo_world), snd (list_apps demo_env demo_world))
  /\ fst (list_apps demo_env demo_world) = Ok []
  /\ list_apps demo_env (snd (list_apps demo_env demo_world))
     = (Ok [], snd (list_apps demo_env demo_world)).
Proof.
  assert (H : list_apps demo_env demo_world = (Ok [], snd (list_apps demo_env demo_world)))
    by (vm_compute; reflexivity).
  split; [exact H|]. split; [rewrite H; reflexivity|].
  exact (list_apps_again _ _ _ _ H).
Defined.

(* ------------------------------------------------------------------ *)
(** ** What [launch_app] changes *)

(** [launch_app] changes no file or directory it finds (it can only create
    the two directories of [ensure_dirs]) and no protection.  It either
    fails and starts nothing, or succeeds after starting exactly one
    process, one of the two bundle names of the id. *)
Lemma launch_app_effect (e : env) (i : string) (w : world) (r : result unit string)
  (w' : world) :
  launch_app e i w = (r, w') ->
  (forall p n, w_fs w !! p = Some n -> w_fs w' !! p = Some n) /\ w_ro w' = w_ro w
  /\ ((exists msg, r = Err msg /\ w_spawned w' = w_spawned w)
      \/ (r = Ok tt
          /\ exists dd p, env_data_dir e = Some dd
               /\ p ∈ [Path.join (storage_of dd) (i +:+ ".AppImage");
                       Path.join (storage_of dd) (i +:+ ".appimage")]
               /\ w_spawned w' = w_spawned w ++ [p])).
Proof.
  intros H. unfold launch_app, mbind, map_err at 1 in H.
  pose proof (only_adds_ensure_dirs e w) as Hk.
  destruct (ensure_dirs e w) as [[[s a]|err] w2] eqn:Ed; simpl in Hk;
    destruct Hk as [Hk [Hro Hsp]].
  2:{ injection H as <- <-. split; [exact Hk|]. split; [exact Hro|]. left. eauto. }
  apply ensure_dirs_ok in Ed as (dd & Hdd & _ & -> & _).
  cbv beta iota in H.
  destruct (list_find _ _) as [[j p]|] eqn:Ef.
  - apply list_find_Some in Ef as [Hj _]. apply list_elem_of_lookup_2 in Hj.
    unfold map_err, spawn in H.
    destruct (can_exec e p w2); injection H as <- <-.
    + split; [exact Hk|]. split; [exact Hro|]. right. split; [reflexivity|].
      exists dd, p. split; [exact Hdd|]. split; [exact Hj|]. cbn [w_spawned].
      by rewrite Hsp.
    + split; [exact Hk|]. split; [exact Hro|]. left. eauto.
  - injection H as <- <-. split; [exact Hk|]. split; [exact Hro|]. left. eauto.
Qed.

Lemma launch_app_effect_witness :
  launch_app demo_env "y" demo_store_world
  = (fst (launch_app demo_env "y" demo_store_world),
     snd (launch_app demo_env "y" demo_store_world))
  /\ (forall p n, w_fs demo_store_world !! p = Some n ->
        w_fs (snd (launch_app demo_env "y" demo_store_world)) !! p = Some n)
  /\ w_ro (snd (launch_app demo_env "y" demo_store_world)) = w_ro demo_store_world
  /\ ((exists msg, fst (launch_app demo_env "y" demo_store_world) = Err msg
        /\ w_spawned (snd (launch_app demo_env "y" demo_store_world))
           = w_spawned demo_store_world)
      \/ (fst (launch_app demo_env "y" demo_store_world) = Ok tt
          /\ exists dd p, env_data_dir demo_env = Some dd
               /\ p ∈ [Path.join (storage_of dd) ("y" +:+ ".AppImage");
                       Path.join (storage_of dd) ("y" +:+ ".appimage")]
               /\ w_spawned (snd (launch_app demo_env "y" demo_store_world))
                  = w_spawned demo_store_world ++ [p])).
Proof.
  assert (H : launch_app demo_env "y" demo_store_world
    = (fst (launch_app demo_env "y" demo_store_world),
       snd (launch_app demo_env "y" demo_store_world))) by (vm_compute; reflexivity).
  split; [exact H|]. exact (launch_app_effect _ _ _ _ _ H).
Defined.

(* ------------------------------------------------------------------ *)
(** ** Adding a directory *)

(** [add_appimage] of a path that is a directory fails: with the error
    of [fs::copy] once the directories exist, or with the error of
    [ensure_dirs].  It copies nothing: the call only creates directories. *)
Lemma add_appimage_directory_source (e : env) (src : string) (w : world)
  (r : result AppImageEntry string) (w' : world) :
  w_fs w !! src = Some NDir -> add_appimage e src w = (r, w') ->
  only_adds w w'
  /\ (r = Err (io_msg CopyNotRegular)
      \/ exists err, ensure_dirs e w = (Err err, w') /\ r = Err (io_msg err)).
Proof.
  intros Hd H. unfold add_appimage in H.
  assert (Hx : exists_b src w = true)
    by (unfold exists_b; rewrite Hd; by apply bool_decide_eq_true_2).
  rewrite Hx in H. cbn [negb] in H. unfold mbind at 1, map_err at 1 in H.
  pose proof (only_adds_ensure_dirs e w) as Hk.
  destruct (ensure_dirs e w) as [[[s a]|err] w2] eqn:Ed; simpl in Hk.
  - unfold mbind at 1, map_err at 1 in H. unfold fs_copy at 1 in H.
    destruct Hk as [Hk Hrest]. rewrite (Hk _ _ Hd) in H.
    injection H as <- <-. split; [exact (conj Hk Hrest)|]. by left.
  - injection H as <- <-. split; [exact Hk|]. right. eauto.
Qed.

Lemma add_appimage_directory_source_witness :
  w_fs demo_world !! "/home/u" = Some NDir
  /\ add_appimage demo_env "/home/u" demo_world
     = (fst (add_appimage demo_env "/home/u" demo_world),
        snd (add_appimage demo_env "/home/u" demo_world))
  /\ only_adds demo_world (snd (add_appimage demo_env "/home/u" demo_world))
  /\ (fst (add_appimage demo_env "/home/u" demo_world) = Err (io_msg CopyNotRegular)
      \/ exists err, ensure_dirs demo_env demo_world
                     = (Err err, snd (add_appimage demo_env "/home/u" demo_world))
                     /\ fst (add_appimage demo_env "/home/u" demo_world) = Err (io_msg err)).
Proof.
  assert (Hd : w_fs demo_world !! "/home/u" = Some NDir) by (vm_compute; reflexivity).
  assert (H : add_appimage demo_env "/home/u" demo_world
     = (fst (add_appimage demo_env "/home/u" demo_world),
        snd (add_appimage demo_env "/home/u" demo_world))) by (vm_compute; reflexivity).
  split; [exact Hd|]. split; [exact H|].
  exact (add_appimage_directory_source _ _ _ _ _ Hd H).
Defined.

(* ------------------------------------------------------------------ *)
(** ** What [ensure_dirs] leaves for the later steps *)

Lemma is_dir_lookup (p : string) (w : world) :
  is_dir p w = true -> w_fs w !! p = Some NDir.
Proof. unfold is_dir. destruct (w_fs w !! p) as [[|]|]; congruence. Qed.

(** A successful [create_all] keeps the protected paths and every path
    outside the chain. *)
Lemma create_all_frame (qs : list string) (w w' : world) :
  create_all qs w = (Ok tt, w') ->
  w_ro w' = w_ro w /\ forall q, q ∉ qs -> w_fs w' !! q = w_fs w !! q.
Proof.
  revert w. induction qs as [|q0 qs IH]; intros w; simpl.
  - unfold mret. intros H. injection H as ->. split; [reflexivity|]. intros; reflexivity.
  - set (b := match qs with [] => true | _ => false end).
    unfold mbind.
    destruct (create_one b q0 w) as [[[]|] w1] eqn:E; [|discriminate].
    intros H. destruct (IH w1 H) as [R1 F1].
    unfold create_one in E.
    destruct (w_fs w !! q0) as [[|]|] eqn:Eq.
    + discriminate E.
    + injection E as <-. split; [exact R1|]. intros q Hq. apply F1. set_solver.
    + destruct (bool_decide (q0 ∈ w_ro w)); [discriminate E|].
      injection E as <-. split; [exact R1|]. intros q Hq.
      rewrite F1 by set_solver. cbn [w_fs set_fs]. apply lookup_insert_ne. set_solver.
Qed.

(** Two worlds that agree outside [X] still do after both create the
    directory [p], when [p] is not in [X]. *)
Lemma create_dir_all_agree (X : list string) (p : string) (w1 w2 w1' w2' : world) :
  p ∉ X -> agree_off X w1 w2 ->
  create_dir_all p w1 = (Ok tt, w1') -> create_dir_all p w2 = (Ok tt, w2') ->
  agree_off X w1' w2'.
Proof.
  intros Hp Hag. unfold create_dir_all.
  assert (Hd : is_dir p w1 = is_dir p w2)
    by (unfold is_dir; by rewrite (proj1 (Hag p Hp))).
  rewrite Hd.
  destruct (bool_decide (p = "") || is_dir p w2).
  - intros H1 H2. injection H1 as <-. injection H2 as <-. exact Hag.
  - intros H1 H2.
    destruct (create_all_frame _ _ _ H1) as [R1 F1].
    destruct (create_all_frame _ _ _ H2) as [R2 F2].
    intros q Hq. rewrite R1, R2. split; [|exact (proj2 (Hag q Hq))].
    destruct (decide (q ∈ dir_chain p)) as [Hin|Hin].
    + apply list_elem_of_In in Hin.
      rewrite (is_dir_lookup _ _ (create_all_ok _ _ _ q H1 Hin)).
      by rewrite (is_dir_lookup _ _ (create_all_ok _ _ _ q H2 Hin)).
    + rewrite (F1 q Hin), (F2 q Hin). exact (proj1 (Hag q Hq)).
Qed.

Lemma ensure_dirs_agree (X : list string) (e : env) (s a : string)
  (w1 w2 w1' w2' : world) :
  s ∉ X -> a ∉ X -> agree_off X w1 w2 ->
  ensure_dirs e w1 = (Ok (s, a), w1') -> ensure_dirs e w2 = (Ok (s, a), w2') ->
  agree_off X w1' w2'.
Proof.
  intros Hs Ha Hag. unfold ensure_dirs.
  destruct (env_data_dir e) as [dd|]; [|discriminate].
  destruct (apps_of e dd) as [a'|err]; [|discriminate].
  unfold mbind.
  destruct (create_dir_all (storage_of dd) w1) as [[[]|] v1] eqn:E1; [|discriminate].
  destruct (create_dir_all (storage_of dd) w2) as [[[]|] v2] eqn:E2; [|discriminate].
  destruct (create_dir_all a' v1) as [[[]|] u1] eqn:F1; [|discriminate].
  destruct (create_dir_all a' v2) as [[[]|] u2] eqn:F2; [|discriminate].
  unfold mret. intros H1 H2. inversion H1; subst. inversion H2; subst.
  apply (create_dir_all_agree X a v1 v2); [exact Ha| |exact F1|exact F2].
  exact (create_dir_all_agree X (storage_of dd) w1 w2 v1 v2 Hs Hag E1 E2).
Qed.

Lemma storage_not_icon (dd i : string) : storage_of dd ∉ icon_paths (storage_of dd) i.
Proof.
  intros H. apply icon_path_last in H.
  assert (Hl : last (list_ascii_of_string (storage_of dd)) = Some "s"%char)
    by (unfold storage_of; rewrite last_join by discriminate; reflexivity).
  rewrite Hl in H.
  repeat (apply elem_of_cons in H as [H | H]; [discriminate|]).
  by apply elem_of_nil in H.
Qed.

Lemma apps_not_icon (e : env) (dd a s i : string) :
  apps_of e dd = Ok a -> a ∉ icon_paths s i.
Proof.
  intros Ha H. apply icon_path_last in H.
  assert (Hl : last (list_ascii_of_string a) = Some "s"%char).
  { revert Ha. unfold apps_of. destruct (in_flatpak_sandbox e).
    - intros Ha. injection Ha as <-. rewrite last_join by discriminate. reflexivity.
    - destruct (env_home_dir e); [|discriminate]. intros Ha. injection Ha as <-.
      rewrite last_join by discriminate. reflexivity. }
  rewrite Hl in H.
  repeat (apply elem_of_cons in H as [H | H]; [discriminate|]).
  by apply elem_of_nil in H.
Qed.

Lemma ensure_dirs_stable (e : env) (w w0 : world) (s a : string) :
  ensure_dirs e w = (Ok (s, a), w0) -> ensure_dirs e w0 = (Ok (s, a), w0).
Proof.
  intros H. apply ensure_dirs_ok in H as (dd & Hdd & Ha & -> & Hs & Ha1).
  exact (ensure_dirs_existing e dd a w0 Hdd Ha Hs Ha1).
Qed.

(** Once [ensure_dirs] has succeeded, the three commands go on from the
    world it leaves. *)
Lemma bind_ensured {A : Type} (e : env) (k : string * string -> M string A)
  (s a : string) (w w0 : world) :
  ensure_dirs e w = (Ok (s, a), w0) ->
  mbind (map_err io_msg (ensure_dirs e)) k w = mbind (map_err io_msg (ensure_dirs e)) k w0.
Proof.
  intros H. pose proof (ensure_dirs_stable e w w0 s a H) as H0.
  unfold mbind, map_err. rewrite H, H0. reflexivity.
Qed.

Lemma remove_app_from_ensured (e : env) (i s a : string) (w w0 : world) :
  ensure_dirs e w = (Ok (s, a), w0) -> remove_app e i w = remove_app e i w0.
Proof. intros H. exact (bind_ensured e _ s a w w0 H). Qed.

Lemma launch_app_from_ensured (e : env) (i s a : string) (w w0 : world) :
  ensure_dirs e w = (Ok (s, a), w0) -> launch_app e i w = launch_app e i w0.
Proof. intros H. exact (bind_ensured e _ s a w w0 H). Qed.

Lemma list_apps_from_ensured (e : env) (s a : string) (w w0 : world) :
  ensure_dirs e w = (Ok (s, a), w0) -> list_apps e w = list_apps e w0.
Proof. intros H. exact (bind_ensured e _ s a w w0 H). Qed.

(* ------------------------------------------------------------------ *)
(** ** C8: launching, from any world *)

(** C8 (amended): let [ensure_dirs] succeed on [w] with the storage
    directory [s], leaving the world [w0] (it only creates directories and
    starts nothing).  The bundle files are looked up in [w0], as the code
    does after [ensure_dirs]:
    - if neither [{id}.AppImage] nor [{id}.appimage] exists, [launch_app]
      fails with a message containing "not found" and starts nothing;
    - otherwise it takes [{id}.AppImage] if present, else [{id}.appimage];
      if exec can start that file, the process is recorded as started and
      [launch_app] succeeds at once, without waiting for it; if exec
      refuses it, the spawn error is returned and nothing is started. *)
Theorem launch_app_outcome (e : env) (i s apps : string) (w w0 : world) :
  ensure_dirs e w = (Ok (s, apps), w0) ->
  let p1 := Path.join s (i +:+ ".AppImage") in
  let p2 := Path.join s (i +:+ ".appimage") in
  w_spawned w0 = w_spawned w
  /\ (exists_b p1 w0 = false -> exists_b p2 w0 = false ->
      exists msg, launch_app e i w = (Err msg, w0) /\ Str.contains "not found" msg = true)
  /\ (forall p, (exists_b p1 w0 = true /\ p = p1)
                \/ (exists_b p1 w0 = false /\ exists_b p2 w0 = true /\ p = p2) ->
      (forall c, can_exec e p w0 = Ok c ->
         launch_app e i w = (Ok tt, mkWorld (w_fs w0) (w_ro w0) (w_spawned w0 ++ [p])))
      /\ (forall err, can_exec e p w0 = Err err ->
         launch_app e i w = (Err (io_msg err), w0))).
Proof.
  intros H p1 p2.
  pose proof (only_adds_ensure_dirs e w) as [_ [_ Hsp]].
  rewrite H in Hsp. cbn [snd] in Hsp.
  rewrite (launch_app_from_ensured e i s apps w w0 H).
  apply ensure_dirs_ok in H as (dd & Hdd & Ha & -> & Hs & Has).
  split; [exact Hsp|].
  exact (launch_app_outcome_at e i dd apps w0 Hdd Ha Hs Has).
Qed.

(** On a fresh home, [launch "z"] reports that the bundle is not found. *)
Lemma launch_app_outcome_witness :
  ensure_dirs demo_env demo_world
  = (Ok ("/home/u/.local/share/axec/appimages", "/home/u/.local/share/applications"),
     snd (ensure_dirs demo_env demo_world))
  /\ exists msg, launch_app demo_env "z" demo_world
                 = (Err msg, snd (ensure_dirs demo_env demo_world))
                 /\ Str.contains "not found" msg = true.
Proof.
  assert (H : ensure_dirs demo_env demo_world
    = (Ok ("/home/u/.local/share/axec/appimages", "/home/u/.local/share/applications"),
       snd (ensure_dirs demo_env demo_world))) by (vm_compute; reflexivity).
  split; [exact H|].
  refine (proj1 (proj2 (launch_app_outcome demo_env "z" _ _ demo_world _ H)) _ _);
    vm_compute; reflexivity.
Defined.

(* ------------------------------------------------------------------ *)
(** ** C5: when [remove_app] reports "not found", from any world *)

(** C5 (amended): let [ensure_dirs] succeed on [w] with the storage
    directory [s] and the menu directory [apps], leaving the world [w0]
    (it only creates directories).  Then [remove_app id] fails with a
    message containing "not found" if and only if, in [w0], neither
    [{id}.AppImage] nor [{id}.appimage] exists in storage and, outside the
    sandbox, [axec-{id}.desktop] does not exist in the menu directory.  And
    two worlds that differ only in the icon files [{id}.png|svg|ico|xpm]
    (whether they exist, and whether deleting them succeeds), and on which
    [ensure_dirs] succeeds, give the same result. *)
Theorem remove_app_not_found (e : env) (i s apps : string) (w w0 : world) :
  ensure_dirs e w = (Ok (s, apps), w0) ->
  ((exists msg w', remove_app e i w = (Err msg, w')
                   /\ Str.contains "not found" msg = true)
   <-> (exists_b (Path.join s (i +:+ ".AppImage")) w0 = false
        /\ exists_b (Path.join s (i +:+ ".appimage")) w0 = false
        /\ (in_flatpak_sandbox e = true
            \/ exists_b (Path.join apps (desktop_name i)) w0 = false)))
  /\ (forall w2 w20, agree_off (icon_paths s i) w w2 ->
       ensure_dirs e w2 = (Ok (s, apps), w20) ->
       fst (remove_app e i w) = fst (remove_app e i w2)).
Proof.
  intros H.
  rewrite (remove_app_from_ensured e i s apps w w0 H).
  pose proof (ensure_dirs_ok e w w0 s apps H) as (dd & Hdd & Ha & Hse & Hs & Has).
  subst s.
  destruct (remove_app_not_found_at e i dd apps w0 Hdd Ha Hs Has) as [Hiff Hag].
  split; [exact Hiff|].
  intros w2 w20 Hag2 H2.
  rewrite (remove_app_from_ensured e i _ apps w2 w20 H2).
  pose proof (ensure_dirs_ok e w2 w20 _ apps H2) as (dd2 & _ & _ & _ & Hs2 & Has2).
  apply Hag; [|exact Hs2|exact Has2].
  exact (ensure_dirs_agree _ e _ apps w w2 w0 w20 (storage_not_icon dd i)
           (apps_not_icon e dd apps _ i Ha) Hag2 H H2).
Qed.

(** On a fresh home, [remove "never-added-id"] reports "not found". *)
Lemma remove_app_not_found_witness :
  ensure_dirs demo_env demo_world
  = (Ok ("/home/u/.local/share/axec/appimages", "/home/u/.local/share/applications"),
     snd (ensure_dirs demo_env demo_world))
  /\ exists msg w', remove_app demo_env "never-added-id" demo_world = (Err msg, w')
                    /\ Str.contains "not found" msg = true.
Proof.
  assert (H : ensure_dirs demo_env demo_world
    = (Ok ("/home/u/.local/share/axec/appimages", "/home/u/.local/share/applications"),
       snd (ensure_dirs demo_env demo_world))) by (vm_compute; reflexivity).
  split; [exact H|].
  apply (proj2 (proj1 (remove_app_not_found demo_env "never-added-id" _ _ demo_world _ H))).
  split; [vm_compute; reflexivity|]. split; [vm_compute; reflexivity|].
  right. vm_compute. reflexivity.
Defined.

(* ------------------------------------------------------------------ *)
(** ** C10: extensions in other letter cases, from any world *)

(** C10 (amended): let [ensure_dirs] succeed on [w] with the storage
    directory [s] and the menu directory [apps], leaving the world [w0]
    (it only creates directories).  Let [w0] hold a file [{id}.x] in
    storage whose extension [x] lower-cases to [appimage], while neither
    [{id}.AppImage] nor [{id}.appimage] exists in [w0] (and [id] is
    non-empty without '/').  Then [list_apps] returns an entry whose path
    is that file; [launch_app id] fails with "AppImage not found" and
    starts nothing; [remove_app id] never deletes the file, and it fails
    with "App not found" unless it runs outside the sandbox and the menu
    entry [axec-{id}.desktop] exists, in which case it succeeds. *)
Theorem other_casing_outcome (e : env) (i x s apps : string) (nd : node) (w w0 : world) :
  ensure_dirs e w = (Ok (s, apps), w0) ->
  i <> "" -> forallb (fun c => negb (eqc c "/")) (list_ascii_of_string i) = true ->
  Str.to_ascii_lowercase x = "appimage" ->
  w_fs w0 !! Path.join s (i +:+ "." +:+ x) = Some nd ->
  exists_b (Path.join s (i +:+ ".AppImage")) w0 = false ->
  exists_b (Path.join s (i +:+ ".appimage")) w0 = false ->
  (exists r en, list_apps e w = (Ok r, w0) /\ en ∈ r
                /\ path en = Path.join s (i +:+ "." +:+ x))
  /\ launch_app e i w = (Err "AppImage not found", w0)
  /\ (exists w', remove_app e i w
                 = (if negb (in_flatpak_sandbox e)
                       && exists_b (Path.join apps (desktop_name i)) w0
                    then Ok tt else Err "App not found", w')
       /\ w_fs w' !! Path.join s (i +:+ "." +:+ x) = Some nd).
Proof.
  intros H Hi Hsi Hx Hf H1 H2.
  rewrite (list_apps_from_ensured e s apps w w0 H),
    (launch_app_from_ensured e i s apps w w0 H),
    (remove_app_from_ensured e i s apps w w0 H).
  apply ensure_dirs_ok in H as (dd & Hdd & Ha & -> & Hs & Has).
  exact (other_casing_outcome_at e i x dd apps nd w0 Hdd Ha Hs Has Hi Hsi Hx Hf H1 H2).
Qed.

Lemma other_casing_outcome_witness :
  ensure_dirs demo_env demo_store_world
  = (Ok ("/home/u/.local/share/axec/appimages", "/home/u/.local/share/applications"),
     demo_store_world)
  /\ launch_app demo_env "y" demo_store_world = (Err "AppImage not found", demo_store_world).
Proof.
  assert (H : ensure_dirs demo_env demo_store_world
    = (Ok ("/home/u/.local/share/axec/appimages", "/home/u/.local/share/applications"),
       demo_store_world)) by (vm_compute; reflexivity).
  split; [exact H|].
  refine (proj1 (proj2 (other_casing_outcome demo_env "y" "APPIMAGE" _ _
            (NFile "ELF" 493%N) demo_store_world demo_store_world H _ eq_refl eq_refl _ _ _))).
  - discriminate.
  - vm_compute. reflexivity.
  - vm_compute. reflexivity.
  - vm_compute. reflexivity.
Defined.
